(** * AddC: on-line agglomerative clustering -- a shallow embedding

    The development follows the three source modules of the package:

    - [kernel.py]   : similarity kernels and the kernel-induced distance,
    - [centroid.py] : the [Centroid] / [KernelCentroid] value types,
    - [base.py]     : the [AddC] engine (move / merge / insert, batch, trim).

    Python floats are idealised as real numbers ([R]); rounding, [inf] and
    [nan] are outside the model.  Python exceptions are values of [exn] and
    every operation that may raise returns a [result]. *)

From Stdlib Require Import Reals Lra Lia ZArith List Bool String.
Import ListNotations.
Local Open Scope R_scope.

(** ** Exceptions and the error monad *)

Inductive exn : Type :=
| TypeError            (* unsupported operand / unexpected keyword *)
| NameError            (* unbound name *)
| ZeroDivisionError    (* [/] on Python numbers with a zero divisor *)
| IndexError           (* tuple index out of range *)
| MathDomainError      (* [ValueError: math domain error] of [math] *)
| DimensionMismatch    (* vectors of different lengths *)
| PreconditionViolated (* an index query outside its precondition *)
| IndexInconsistent.   (* duplicate insert, remove/replace of an absent entry *)

Inductive result (A : Type) : Type :=
| Ok (a : A)
| Raise (e : exn).

Arguments Ok {A} a.
Arguments Raise {A} e.

Definition bind {A B : Type} (c : result A) (k : A -> result B) : result B :=
  match c with
  | Ok a => k a
  | Raise e => Raise e
  end.

Notation "x <- c ;; k" := (bind c (fun x => k))
  (at level 61, c at next level, right associativity).

Definition returns {A : Type} (c : result A) : Prop := exists a, c = Ok a.

(** ** Vectors

    Points are tuples of floats; [array(...)] of a tuple is the same sequence
    of numbers. *)

Definition vec : Type := list R.

Definition vec_eq_dec : forall x y : vec, {x = y} + {x <> y} :=
  list_eq_dec Req_dec_T.

Definition vec_eqb (x y : vec) : bool :=
  if vec_eq_dec x y then true else false.

(** Modelled from the spec: the element-wise array arithmetic of numpy is
    not part of the repository.  Section 4.1 requires equal-length vectors
    and has a mismatch rejected with a dimension-mismatch error. *)
Fixpoint zip_with (f : R -> R -> R) (x y : vec) : result vec :=
  match x, y with
  | [], [] => Ok []
  | a :: x', b :: y' => r <- zip_with f x' y' ;; Ok (f a b :: r)
  | _, _ => Raise DimensionMismatch
  end.

Definition vadd : vec -> vec -> result vec := zip_with Rplus.
Definition vsub : vec -> vec -> result vec := zip_with Rminus.
Definition vscale (x : vec) (k : R) : vec := map (fun a => a * k) x.
Definition vdiv (x : vec) (k : R) : vec := map (fun a => a / k) x.

(** Modelled from the spec: [scipy.dot], [scipy.spatial.distance.sqeuclidean]
    and [scipy.spatial.distance.euclidean] (inner product, squared Euclidean
    norm of the difference, Euclidean norm of the difference). *)
Fixpoint dot (x y : vec) : result R :=
  match x, y with
  | [], [] => Ok 0
  | a :: x', b :: y' => s <- dot x' y' ;; Ok (a * b + s)
  | _, _ => Raise DimensionMismatch
  end.

Definition sqeuclidean (x y : vec) : result R :=
  d <- vsub x y ;; dot d d.

Definition euclidean (x y : vec) : result R :=
  s <- sqeuclidean x y ;; Ok (sqrt s).

(** [math.sqrt] and [math.acos] raise [ValueError: math domain error]
    outside their domains. *)
Definition math_sqrt (x : R) : result R :=
  if Rle_dec 0 x then Ok (sqrt x) else Raise MathDomainError.

Definition math_acos (x : R) : result R :=
  if Rle_dec (-1) x
  then if Rle_dec x 1 then Ok (acos x) else Raise MathDomainError
  else Raise MathDomainError.

(** ** kernel.py *)

Module Kernel.

(** [linear(x, y, c=0)] *)
Definition linear (x y : vec) (c : R) : result R :=
  d <- dot x y ;; Ok (d + c).

(** [gaussian(x, y, sigma=1)]:
    [exp(-(dist.sqeuclidean(x, y)/2*sigma**2))] *)
Definition gaussian (x y : vec) (sigma : R) : result R :=
  d <- sqeuclidean x y ;; Ok (exp (- (d / 2 * sigma ^ 2))).

(** [exponential(x, y, sigma=1)]:
    [exp(-(dist.euclidean(x, y) / 2*sigma**2))] *)
Definition exponential (x y : vec) (sigma : R) : result R :=
  d <- euclidean x y ;; Ok (exp (- (d / 2 * sigma ^ 2))).

(** [laplacian(x, y, sigma=1)] *)
Definition laplacian (x y : vec) (sigma : R) : result R :=
  d <- euclidean x y ;; Ok (exp (- (d / sigma))).

(** [multiquadric(x, y, c=0)] *)
Definition multiquadric (x y : vec) (c : R) : result R :=
  d <- sqeuclidean x y ;; math_sqrt (d + c ^ 2).

(** [circular(x, y, sigma)] *)
Definition circular (x y : vec) (sigma : R) : result R :=
  let pi2 := 2 / PI in
  d <- euclidean x y ;;
  let norm_sigma := d / sigma in
  a <- math_acos (- norm_sigma) ;;
  s <- math_sqrt (1 - norm_sigma ^ 2) ;;
  Ok (pi2 * a - pi2 * norm_sigma * s).

(** Keyword arguments [**kw] of [kernel_dist]. *)
Definition kwargs : Type := list (string * R).

Fixpoint kw_get (kw : kwargs) (key : string) (default : R) : R :=
  match kw with
  | [] => default
  | (k, v) :: kw' => if String.eqb k key then v else kw_get kw' key default
  end.

Fixpoint kw_find (kw : kwargs) (key : string) : option R :=
  match kw with
  | [] => None
  | (k, v) :: kw' => if String.eqb k key then Some v else kw_find kw' key
  end.

Definition kw_only (kw : kwargs) (allowed : list string) : bool :=
  forallb (fun kv => existsb (String.eqb (fst kv)) allowed) kw.

(** A kernel as an object: its [__name__] and what calling it with two
    positional vectors and keyword arguments does.  A keyword the function
    does not accept is a [TypeError]; so is a missing required one. *)
Record kernel : Type := {
  __name__ : string;
  call : vec -> vec -> kwargs -> result R
}.

Definition linear_fn : kernel := {|
  __name__ := "linear";
  call := fun x y kw =>
    if kw_only kw ["c"%string] then linear x y (kw_get kw "c" 0)
    else Raise TypeError |}.

Definition gaussian_fn : kernel := {|
  __name__ := "gaussian";
  call := fun x y kw =>
    if kw_only kw ["sigma"%string] then gaussian x y (kw_get kw "sigma" 1)
    else Raise TypeError |}.

Definition exponential_fn : kernel := {|
  __name__ := "exponential";
  call := fun x y kw =>
    if kw_only kw ["sigma"%string] then exponential x y (kw_get kw "sigma" 1)
    else Raise TypeError |}.

Definition laplacian_fn : kernel := {|
  __name__ := "laplacian";
  call := fun x y kw =>
    if kw_only kw ["sigma"%string] then laplacian x y (kw_get kw "sigma" 1)
    else Raise TypeError |}.

Definition multiquadric_fn : kernel := {|
  __name__ := "multiquadric";
  call := fun x y kw =>
    if kw_only kw ["c"%string] then multiquadric x y (kw_get kw "c" 0)
    else Raise TypeError |}.

Definition circular_fn : kernel := {|
  __name__ := "circular";
  call := fun x y kw =>
    if kw_only kw ["sigma"%string] then
      match kw_find kw "sigma" with
      | Some sigma => circular x y sigma
      | None => Raise TypeError
      end
    else Raise TypeError |}.

(** The general branch of [kernel_dist]:
    [lambda x, y: kern(x, x) - 2*kern(x, y) + kern(y, y)] *)
Definition induced_dist (kern : vec -> vec -> result R) (x y : vec)
  : result R :=
  kxx <- kern x x ;;
  kxy <- kern x y ;;
  kyy <- kern y y ;;
  Ok (kxx - 2 * kxy + kyy).

(** The Gaussian branch of [kernel_dist]:
    [lambda x, y: 2 - 2*gaussian(x, y, kw.get("sigma", 1))] *)
Definition gaussian_shortcut (kw : kwargs) (x y : vec) : result R :=
  g <- gaussian x y (kw_get kw "sigma" 1) ;; Ok (2 - 2 * g).

(** [kernel_dist(kernel=linear, **kw)]; [None] is "no kernel". *)
Definition kernel_dist (k : option kernel) (kw : kwargs)
  : vec -> vec -> result R :=
  match k with
  | None => euclidean
  | Some kernel =>
      if String.eqb (__name__ kernel) "gaussian"
      then gaussian_shortcut kw
      else induced_dist (fun x y => call kernel x y kw)
  end.

End Kernel.

(** ** kernel.py, the remaining kernels *)

Module KernelRest.
Import Kernel.

(** [rational_quadratic(x, y, c=0)]
<<
    d = dist.sqeuclidean(x, y)
    return 1 - d / (d + c)
>>
    [d] is a numpy scalar, whose division does not raise. *)
Definition rational_quadratic (x y : vec) (c : R) : result R :=
  d <- sqeuclidean x y ;; Ok (1 - d / (d + c)).

(** [inverse_multiquadratic(x, y, c=0)]: [1 / multiquadric(x, y, c)].
    [multiquadric] returns the Python float of [math.sqrt], so a zero
    divisor raises [ZeroDivisionError]. *)
Definition inverse_multiquadratic (x y : vec) (c : R) : result R :=
  m <- multiquadric x y c ;;
  if Req_dec_T m 0 then Raise ZeroDivisionError else Ok (1 / m).

(** [sigmoid(x, y, alpha=None, c=-E)]
<<
    if alpha is None:
        alpha = 1 / len(x)
    return tanh(alpha*dot(x, y) + c)
>> *)
Definition sigmoid (x y : vec) (alpha : option R) (c : R) : result R :=
  alpha <- match alpha with
           | Some a => Ok a
           | None =>
               match List.length x with
               | O => Raise ZeroDivisionError
               | S _ => Ok (1 / INR (List.length x))
               end
           end ;;
  d <- dot x y ;;
  Ok (tanh (alpha * d + c)).

(** [math.e] *)
Definition E : R := exp 1.

Definition rational_quadratic_fn : kernel := {|
  __name__ := "rational_quadratic";
  call := fun x y kw =>
    if kw_only kw ["c"%string] then rational_quadratic x y (kw_get kw "c" 0)
    else Raise TypeError |}.

Definition inverse_multiquadratic_fn : kernel := {|
  __name__ := "inverse_multiquadratic";
  call := fun x y kw =>
    if kw_only kw ["c"%string] then inverse_multiquadratic x y (kw_get kw "c" 0)
    else Raise TypeError |}.

Definition sigmoid_fn : kernel := {|
  __name__ := "sigmoid";
  call := fun x y kw =>
    if kw_only kw ["alpha"%string; "c"%string]
    then sigmoid x y (kw_find kw "alpha") (kw_get kw "c" (- E))
    else Raise TypeError |}.

End KernelRest.

(** ** centroid.py *)

Module Centroids.

(** The two classes; [KernelCentroid] is declared as a subclass of
    [Centroid]. *)
Inductive cls : Type := Centroid_cls | KernelCentroid_cls.

Definition issubclass (a b : cls) : bool :=
  match a, b with
  | Centroid_cls, Centroid_cls => true
  | Centroid_cls, KernelCentroid_cls => false
  | KernelCentroid_cls, _ => true
  end.

(** Instances.  [Centroid.__new__] builds the 2-tuple [(center, count)],
    [KernelCentroid.__new__] the 3-tuple [(center, count, size)]. *)
Inductive centroid : Type :=
| Centroid (center : vec) (count : Z)
| KernelCentroid (center : vec) (count : Z) (size : R).

Definition type_of (c : centroid) : cls :=
  match c with
  | Centroid _ _ => Centroid_cls
  | KernelCentroid _ _ _ => KernelCentroid_cls
  end.

Definition isinstance (c : centroid) (k : cls) : bool :=
  issubclass (type_of c) k.

(** Field accessors of the namedtuple [("center", "count", "size")]:
    item 0, item 1 and item 2 of the underlying tuple. *)
Definition center (c : centroid) : vec :=
  match c with
  | Centroid x _ => x
  | KernelCentroid x _ _ => x
  end.

Definition count (c : centroid) : Z :=
  match c with
  | Centroid _ n => n
  | KernelCentroid _ n _ => n
  end.

Definition size (c : centroid) : result R :=
  match c with
  | Centroid _ _ => Raise IndexError
  | KernelCentroid _ _ s => Ok s
  end.

(** [cls(center, count[, size])] with the declared defaults
    [Centroid.__new__.__defaults__ = (0,)] and
    [KernelCentroid.__new__.__defaults__ = (0, 0.0)]. *)
Definition new (k : cls) (x : vec) (n : option Z) (s : option R)
  : result centroid :=
  let n := match n with Some n => n | None => 0%Z end in
  match k, s with
  | Centroid_cls, None => Ok (Centroid x n)
  | Centroid_cls, Some _ => Raise TypeError
  | KernelCentroid_cls, None => Ok (KernelCentroid x n 0)
  | KernelCentroid_cls, Some s => Ok (KernelCentroid x n s)
  end.

(** [__eq__]: equality of the centers only. *)
Definition __eq__ (self other : centroid) : bool :=
  vec_eqb (center self) (center other).

(** Name resolution inside a method body: local names first, then the
    names bound at module level in [centroid.py]. *)
Definition module_names : list string :=
  ["print_function"; "division"; "absolute_import"; "namedtuple"; "array";
   "gaussian"; "Centroid"; "KernelCentroid"]%string.

Definition resolve (locals : list string) (name : string) : result unit :=
  if existsb (String.eqb name) (locals ++ module_names)
  then Ok tt else Raise NameError.

(** [Centroid.__add__].  [array(other)] of a centroid iterates it, which
    yields its center.
<<
    center = self.center + ((other - array(other)) / (self.count+1))
    count = self.count + 1
    return type(self)(center, count=count)
>> *)
Definition Centroid__add__ (self other : centroid) : result centroid :=
  let other := center other in
  d <- vsub other other ;;
  center' <- vadd (center self) (vdiv d (IZR (count self + 1))) ;;
  let count' := (count self + 1)%Z in
  new (type_of self) center' (Some count') None.

(** [Centroid.merge].
<<
    if not isinstance(other, type(self)): raise TypeError(...)
    x, y = array(self.center)*self.count, array(other.center)*other.count
    center = (x + y) / (a.count + b.count)
    count = a.count + b.count
    return type(self)(center=center, count=count)
>> *)
Definition Centroid_merge (self other : centroid) : result centroid :=
  if negb (isinstance other (type_of self)) then Raise TypeError else
  let x := vscale (center self) (IZR (count self)) in
  let y := vscale (center other) (IZR (count other)) in
  let locals := ["self"; "other"; "x"; "y"]%string in
  xy <- vadd x y ;;
  _ <- resolve locals "a" ;;
  _ <- resolve locals "b" ;;
  let center' := vdiv xy (IZR (count self + count other)) in
  let count' := (count self + count other)%Z in
  new (type_of self) center' (Some count') None.

(** [KernelCentroid.merge].
<<
    if not isinstance(other, type(self)): raise TypeError(...)
    x, y = array(self.center)*self.size, array(other.center)*other.size
    center = (x + y) / (self.size + other.size)
    count = self.count + other.count
    size = self.size + other.size
    return type(self)(center=center, count=count, size=size)
>> *)
Definition KernelCentroid_merge (self other : centroid) : result centroid :=
  if negb (isinstance other (type_of self)) then Raise TypeError else
  ss <- size self ;;
  so <- size other ;;
  let x := vscale (center self) ss in
  let y := vscale (center other) so in
  xy <- vadd x y ;;
  let center' := vdiv xy (ss + so) in
  let count' := (count self + count other)%Z in
  let size' := ss + so in
  new (type_of self) center' (Some count') (Some size').

(** [kernel = lambda self, a, b: gaussian(a, b)] *)
Definition kernel (a b : vec) : result R := Kernel.gaussian a b 1.

(** [KernelCentroid.__add__], for the class attribute [kernel] (which a
    subclass may rebind).
<<
    x, y = array(self.center), array(other.center)
    size = self.size + self.kernel(self.center, other.center)
    center = x + (y - x) / size
    count = self.count + 1
    return type(self)(center, count, size)
>> *)
Definition KernelCentroid__add__with (kernel : vec -> vec -> result R)
  (self other : centroid) : result centroid :=
  let x := center self in
  let y := center other in
  ss <- size self ;;
  k <- kernel (center self) (center other) ;;
  let size' := ss + k in
  d <- vsub y x ;;
  center' <- vadd x (vdiv d size') ;;
  let count' := (count self + 1)%Z in
  new (type_of self) center' (Some count') (Some size').

Definition KernelCentroid__add__ : centroid -> centroid -> result centroid :=
  KernelCentroid__add__with kernel.

(** Method lookup on the class of [self]: [KernelCentroid] overrides
    [__add__] and [merge]; [add] is [self + other]. *)
Definition __add__ (self other : centroid) : result centroid :=
  match type_of self with
  | Centroid_cls => Centroid__add__ self other
  | KernelCentroid_cls => KernelCentroid__add__ self other
  end.

Definition add (self other : centroid) : result centroid :=
  __add__ self other.

Definition merge (self other : centroid) : result centroid :=
  match type_of self with
  | Centroid_cls => Centroid_merge self other
  | KernelCentroid_cls => KernelCentroid_merge self other
  end.

(** [centroid_factory(p)]: the class called on the point alone. *)
Definition factory (k : cls) (p : vec) : centroid :=
  match k with
  | Centroid_cls => Centroid p 0
  | KernelCentroid_cls => KernelCentroid p 0 0
  end.

End Centroids.

(** ** The nearest-pair index

    Modelled from the spec: the [FastPair] index is an external collaborator
    and not part of the repository.  The model is the contract of section 6:
    an ordered store of centroids, compared by center, configured with a
    distance function.  Ties between equal distances go to the entry met
    first in iteration order. *)

Module FastPair.
Import Centroids.

Record t : Type := {
  dist : vec -> vec -> result R;
  points : list centroid
}.

Definition with_points (fp : t) (l : list centroid) : t :=
  {| dist := dist fp; points := l |}.

(** [size() -> integer] *)
Definition __len__ (fp : t) : nat := List.length (points fp).

(** [contains(point_or_centroid) -> boolean] *)
Definition __contains__ (fp : t) (c : centroid) : bool :=
  existsb (__eq__ c) (points fp).

(** [iterate()] *)
Definition __iter__ (fp : t) : list centroid := points fp.

(** [insert(centroid)]: fails if an equal (by center) centroid is stored. *)
Definition insert (fp : t) (c : centroid) : result t :=
  if __contains__ fp c then Raise IndexInconsistent
  else Ok (with_points fp (points fp ++ [c])).

Fixpoint remove_first (c : centroid) (l : list centroid)
  : option (list centroid) :=
  match l with
  | [] => None
  | x :: l' =>
      if __eq__ x c then Some l'
      else option_map (cons x) (remove_first c l')
  end.

(** [remove(centroid)]: fails if absent. *)
Definition remove (fp : t) (c : centroid) : result t :=
  match remove_first c (points fp) with
  | Some l => Ok (with_points fp l)
  | None => Raise IndexInconsistent
  end.

Fixpoint replace_first (old new : centroid) (l : list centroid)
  : option (list centroid) :=
  match l with
  | [] => None
  | x :: l' =>
      if __eq__ x old then Some (new :: l')
      else option_map (cons x) (replace_first old new l')
  end.

(** [replace(old, new)]: same logical slot; fails if [old] is absent. *)
Definition _update_point (fp : t) (old new : centroid) : result t :=
  match replace_first old new (points fp) with
  | Some l => Ok (with_points fp l)
  | None => Raise IndexInconsistent
  end.

(** [nearest(query)]: the distance from the query to every stored
    centroid, paired with that centroid. *)
Fixpoint sdist_list (d : vec -> vec -> result R) (q : centroid)
  (l : list centroid) : result (list (R * centroid)) :=
  match l with
  | [] => Ok []
  | b :: l' =>
      r <- d (center q) (center b) ;;
      rest <- sdist_list d q l' ;;
      Ok ((r, b) :: rest)
  end.

Definition sdist (fp : t) (q : centroid) : result (list (R * centroid)) :=
  sdist_list (dist fp) q (points fp).

(** All unordered pairs of stored centroids with their distance. *)
Fixpoint pair_dists (d : vec -> vec -> result R) (l : list centroid)
  : result (list (R * (centroid * centroid))) :=
  match l with
  | [] => Ok []
  | a :: l' =>
      row <- sdist_list d a l' ;;
      rest <- pair_dists d l' ;;
      Ok (map (fun rb => (fst rb, (a, snd rb))) row ++ rest)
  end.

(** The first entry of least key, as Python's [min(..., key=itemgetter(0))]
    finds it; [ValueError] on an empty sequence is reported as a violated
    precondition. *)
Fixpoint min_from {A : Type} (best : R * A) (l : list (R * A)) : R * A :=
  match l with
  | [] => best
  | x :: l' =>
      if Rlt_dec (fst x) (fst best) then min_from x l' else min_from best l'
  end.

Definition min_by_key {A : Type} (l : list (R * A)) : result (R * A) :=
  match l with
  | [] => Raise PreconditionViolated
  | x :: l' => Ok (min_from x l')
  end.

(** [closest_pair() -> (distance, (a, b))]: fails with fewer than two
    stored centroids. *)
Definition closest_pair (fp : t) : result (R * (centroid * centroid)) :=
  if (__len__ fp <? 2)%nat then Raise PreconditionViolated
  else ds <- pair_dists (dist fp) (points fp) ;; min_by_key ds.

End FastPair.

(** ** base.py *)

Module Base.
Import Centroids.

Record AddC : Type := {
  kmax : Z;
  npoints : Z;
  centroid_factory : cls;
  fastpair : FastPair.t
}.

Definition with_fastpair (self : AddC) (fp : FastPair.t) : AddC :=
  {| kmax := kmax self; npoints := npoints self;
     centroid_factory := centroid_factory self; fastpair := fp |}.

(** [AddC.__init__(kmax=100, dist=kernel_dist(gaussian),
    centroid_factory=KernelCentroid)] *)
Definition __init__ (kmax : Z) (dist : vec -> vec -> result R)
  (centroid_factory : cls) : AddC :=
  {| kmax := kmax; npoints := 0; centroid_factory := centroid_factory;
     fastpair := {| FastPair.dist := dist; FastPair.points := [] |} |}.

Definition default_dist : vec -> vec -> result R :=
  Kernel.kernel_dist (Some Kernel.gaussian_fn) [].

Definition default_AddC : AddC :=
  __init__ 100 default_dist KernelCentroid_cls.

Definition __len__ (self : AddC) : nat := FastPair.__len__ (fastpair self).

Definition __iter__ (self : AddC) : list centroid :=
  FastPair.__iter__ (fastpair self).

Definition __contains__ (self : AddC) (p : centroid) : bool :=
  FastPair.__contains__ (fastpair self) p.

Definition centroids (self : AddC) : list vec :=
  map center (FastPair.__iter__ (fastpair self)).

(** Step 1: move the closest centroid towards the point.
<<
    if len(self.fastpair) > 0:
        old = min(self.fastpair.sdist(c), key=itemgetter(0))[1]
        self.fastpair._update_point(old, old.add(c))
>> *)
Definition _step_one (self : AddC) (c : centroid) : result AddC :=
  if (0 <? FastPair.__len__ (fastpair self))%nat then
    ds <- FastPair.sdist (fastpair self) c ;;
    m <- FastPair.min_by_key ds ;;
    let old := snd m in
    moved <- add old c ;;
    fp <- FastPair._update_point (fastpair self) old moved ;;
    Ok (with_fastpair self fp)
  else Ok self.

(** Step 2: merge the two closest centroids.
<<
    if len(self.fastpair) >= self.kmax and len(self.fastpair) > 1:
        dist, (a, b) = self.fastpair.closest_pair()
        self.fastpair -= b
        self.fastpair._update_point(a, a.merge(b))
>> *)
Definition _step_two (self : AddC) : result AddC :=
  if (kmax self <=? Z.of_nat (FastPair.__len__ (fastpair self)))%Z
     && (1 <? FastPair.__len__ (fastpair self))%nat then
    cp <- FastPair.closest_pair (fastpair self) ;;
    let a := fst (snd cp) in
    let b := snd (snd cp) in
    fp1 <- FastPair.remove (fastpair self) b ;;
    merged <- merge a b ;;
    fp2 <- FastPair._update_point fp1 a merged ;;
    Ok (with_fastpair self fp2)
  else Ok self.

(** Step 3: the new point becomes a centroid of its own.
<<
    self.fastpair += c
>> *)
Definition _step_three (self : AddC) (c : centroid) : result AddC :=
  fp <- FastPair.insert (fastpair self) c ;;
  Ok (with_fastpair self fp).

(** [AddC.__add__(self, p)] *)
Definition __add__ (self : AddC) (p : vec) : result AddC :=
  let c := factory (centroid_factory self) p in
  s1 <- _step_one self c ;;
  s2 <- _step_two s1 ;;
  s3 <- _step_three s2 c ;;
  Ok {| kmax := kmax s3; npoints := npoints s3 + 1;
        centroid_factory := centroid_factory s3; fastpair := fastpair s3 |}.

(** [AddC.batch(self, points)] *)
Fixpoint batch (self : AddC) (points : list vec) : result AddC :=
  match points with
  | [] => Ok self
  | point :: rest => self' <- __add__ self point ;; batch self' rest
  end.

(** [[x.size for x in self if x.size > 0]] *)
Fixpoint positive_sizes (l : list centroid) : result (list R) :=
  match l with
  | [] => Ok []
  | x :: l' =>
      s <- size x ;;
      if Rlt_dec 0 s then
        s' <- size x ;; rest <- positive_sizes l' ;; Ok (s' :: rest)
      else positive_sizes l'
  end.

(** [[x for x in self if x.size >= t]] *)
Fixpoint at_least (t : R) (l : list centroid) : result (list centroid) :=
  match l with
  | [] => Ok []
  | x :: l' =>
      s <- size x ;;
      rest <- at_least t l' ;;
      Ok (if Rle_dec t s then x :: rest else rest)
  end.

(** Python's [sum(sub)/len(sub)]: true division, [ZeroDivisionError] when
    [len(sub)] is [0]. *)
Definition mean (sub : list R) : result R :=
  match List.length sub with
  | O => Raise ZeroDivisionError
  | S _ => Ok (fold_left Rplus sub 0 / INR (List.length sub))
  end.

(** [AddC.trim(self, p=0.01)]
<<
    sub = [x.size for x in self if x.size > 0]
    t = (sum(sub)/len(sub)) * p
    return [x for x in self if x.size >= t]
>> *)
Definition trim (self : AddC) (p : R) : result (list centroid) :=
  sub <- positive_sizes (__iter__ self) ;;
  m <- mean sub ;;
  let t := m * p in
  at_least t (__iter__ self).

End Base.

(** ** What the specification says, for comparison with the code *)

Module Spec.

(** The Gaussian kernel as the specification (and the docstring of
    [gaussian]) writes it: [exp(-||x - y||^2 / (2 sigma^2))]. *)
Definition gaussian (x y : vec) (sigma : R) : result R :=
  d <- sqeuclidean x y ;; Ok (exp (- (d / (2 * sigma ^ 2)))).

(** The circular kernel as the specification (and the docstring of
    [circular]) writes it: piecewise, zero from [r = 1] on. *)
Definition circular (x y : vec) (sigma : R) : result R :=
  d <- euclidean x y ;;
  let r := d / sigma in
  if Rlt_dec r 1
  then Ok (2 / PI * acos (- r) - 2 / PI * r * sqrt (1 - r ^ 2))
  else Ok 0.

(** Running mean of the plain centroid: [center + (p - center)/(count+1)]. *)
Definition running_mean (center p : vec) (count : Z) : result vec :=
  d <- vsub p center ;; vadd center (vdiv d (IZR (count + 1))).

(** Weighted average of two centers with weights [wa] and [wb]. *)
Definition weighted_average (ca : vec) (wa : R) (cb : vec) (wb : R)
  : result vec :=
  s <- vadd (vscale ca wa) (vscale cb wb) ;; Ok (vdiv s (wa + wb)).

End Spec.

(** ** Engine states used as concrete inputs *)

Module Examples.
Import Centroids Base.

(** [K((0,), (1,))] as the code evaluates it at [sigma = 1]. *)
Definition g01 : R := exp (- (((0 - 1) * (0 - 1) + 0) / 2 * 1 ^ 2)).

(** The singleton of [(0,)] after absorbing [(1,)]. *)
Definition moved0 : centroid :=
  KernelCentroid [0 + (1 - 0) / (0 + g01)] (0 + 1) (0 + g01).

(** The default engine with capacity [kmax] after [(0,)] and [(1,)]. *)
Definition two_points (kmax : Z) : AddC :=
  {| kmax := kmax; npoints := 0 + 1 + 1;
     centroid_factory := KernelCentroid_cls;
     fastpair := {| FastPair.dist := default_dist;
                    FastPair.points := [moved0; KernelCentroid [1] 0 0] |} |}.

(** An engine of plain centroids after the point [(0,)]. *)
Definition plain_one_point : AddC :=
  {| kmax := 100; npoints := 0 + 1;
     centroid_factory := Centroid_cls;
     fastpair := {| FastPair.dist := default_dist;
                    FastPair.points := [Centroid [0] 0] |} |}.

(** "[c] has a size, and it is strictly positive." *)
Definition positive_size (c : centroid) : Prop :=
  exists s, size c = Ok s /\ 0 < s.

(** "Every stored centroid is a kernel centroid", as in an engine built
    with the default [centroid_factory]. *)
Definition kernel_only (l : list centroid) : Prop :=
  forall c, In c l -> type_of c = KernelCentroid_cls.

End Examples.

(** ** Predicates on stored centroids *)

Module Predicates.
Import Centroids.

(** "Every stored centroid is an instance of exactly the class [k]." *)
Definition all_of_class (k : cls) (l : list centroid) : Prop :=
  forall c, In c l -> type_of c = k.

End Predicates.

(** ** Vector lemmas *)

Section VectorFacts.

Lemma zip_with_length (f : R -> R -> R) :
  forall x y r, zip_with f x y = Ok r ->
    List.length x = List.length y /\ List.length r = List.length x.
Proof.
  induction x as [|a x IH]; intros [|b y] r H; simpl in H;
    try discriminate.
  - inversion H; subst. split; reflexivity.
  - destruct (zip_with f x y) as [r'|e] eqn:E; simpl in H; try discriminate.
    inversion H; subst. destruct (IH _ _ E) as [H1 H2].
    simpl. split; congruence.
Qed.

Lemma zip_with_total (f : R -> R -> R) :
  forall x y, List.length x = List.length y ->
    exists r, zip_with f x y = Ok r.
Proof.
  induction x as [|a x IH]; intros [|b y] H; simpl in H; try discriminate.
  - exists []. reflexivity.
  - injection H as H. destruct (IH _ H) as [r Hr].
    exists (f a b :: r). simpl. rewrite Hr. reflexivity.
Qed.

Lemma zip_with_mismatch (f : R -> R -> R) :
  forall x y, List.length x <> List.length y ->
    zip_with f x y = Raise DimensionMismatch.
Proof.
  induction x as [|a x IH]; intros [|b y] H; simpl in *;
    try reflexivity; try congruence.
  rewrite IH by congruence. reflexivity.
Qed.

Lemma zip_with_nth (f : R -> R -> R) :
  forall x y r, zip_with f x y = Ok r ->
    forall i, (i < List.length x)%nat ->
      nth i r 0 = f (nth i x 0) (nth i y 0).
Proof.
  induction x as [|a x IH]; intros [|b y] r H i Hi; simpl in H;
    try discriminate; simpl in Hi; try lia.
  destruct (zip_with f x y) as [r'|e] eqn:E; simpl in H; try discriminate.
  inversion H; subst. destruct i as [|i]; simpl; [reflexivity|].
  apply (IH _ _ E). lia.
Qed.

Lemma vdiv_length (x : vec) (k : R) :
  List.length (vdiv x k) = List.length x.
Proof. apply length_map. Qed.

Lemma vscale_length (x : vec) (k : R) :
  List.length (vscale x k) = List.length x.
Proof. apply length_map. Qed.

Lemma vdiv_nth (x : vec) (k : R) (i : nat) :
  (i < List.length x)%nat -> nth i (vdiv x k) 0 = nth i x 0 / k.
Proof.
  revert i. induction x as [|a x IH]; intros i Hi; simpl in *; [lia|].
  destruct i; [reflexivity|]. apply IH. lia.
Qed.

Lemma vscale_nth (x : vec) (k : R) (i : nat) :
  (i < List.length x)%nat -> nth i (vscale x k) 0 = nth i x 0 * k.
Proof.
  revert i. induction x as [|a x IH]; intros i Hi; simpl in *; [lia|].
  destruct i; [reflexivity|]. apply IH. lia.
Qed.

(** [x - x] is the zero vector and its squared norm is [0]. *)
Lemma vsub_self (x : vec) : vsub x x = Ok (map (fun a => a - a) x).
Proof.
  unfold vsub. induction x as [|a x IH]; simpl; [reflexivity|].
  rewrite IH. reflexivity.
Qed.

Lemma dot_diag_zero (x : vec) :
  dot (map (fun a => a - a) x) (map (fun a => a - a) x) = Ok 0.
Proof.
  induction x as [|a x IH]; simpl; [reflexivity|].
  rewrite IH. simpl. f_equal. lra.
Qed.

Lemma sqeuclidean_self (x : vec) : sqeuclidean x x = Ok 0.
Proof.
  unfold sqeuclidean. rewrite vsub_self. simpl. apply dot_diag_zero.
Qed.

Lemma dot_self_nonneg :
  forall d s, dot d d = Ok s -> 0 <= s.
Proof.
  induction d as [|a d IH]; intros s H; simpl in H.
  - inversion H. lra.
  - destruct (dot d d) as [s'|e] eqn:E; simpl in H; try discriminate.
    inversion H; subst. specialize (IH _ eq_refl). nra.
Qed.

Lemma dot_total :
  forall x y, List.length x = List.length y -> exists s, dot x y = Ok s.
Proof.
  induction x as [|a x IH]; intros [|b y] H; simpl in H; try discriminate.
  - exists 0. reflexivity.
  - injection H as H. destruct (IH _ H) as [s Hs].
    exists (a * b + s). simpl. rewrite Hs. reflexivity.
Qed.

Lemma sqeuclidean_total (x y : vec) :
  List.length x = List.length y ->
  exists s, sqeuclidean x y = Ok s /\ 0 <= s.
Proof.
  intros H. unfold sqeuclidean, vsub.
  destruct (zip_with_total Rminus x y H) as [d Hd]. rewrite Hd. simpl.
  destruct (dot_total d d eq_refl) as [s Hs]. exists s. split; [exact Hs|].
  eapply dot_self_nonneg; eassumption.
Qed.

Lemma sqeuclidean_mismatch (x y : vec) :
  List.length x <> List.length y ->
  sqeuclidean x y = Raise DimensionMismatch.
Proof.
  intros H. unfold sqeuclidean, vsub. rewrite zip_with_mismatch by exact H.
  reflexivity.
Qed.

Lemma euclidean_total (x y : vec) :
  List.length x = List.length y ->
  exists d, euclidean x y = Ok d /\ 0 <= d.
Proof.
  intros H. destruct (sqeuclidean_total x y H) as [s [Hs Hpos]].
  exists (sqrt s). unfold euclidean. rewrite Hs. simpl.
  split; [reflexivity | apply sqrt_pos].
Qed.

End VectorFacts.

(** ** Kernels *)

Module KernelFacts.
Import Kernel.

Lemma gaussian_eq (x y : vec) (sigma d : R) :
  sqeuclidean x y = Ok d ->
  gaussian x y sigma = Ok (exp (- (d / 2 * sigma ^ 2))).
Proof. intros H. unfold gaussian. rewrite H. reflexivity. Qed.

(** A point is at Gaussian similarity [1] from itself, whatever [sigma]. *)
Lemma gaussian_self (x : vec) (sigma : R) : gaussian x x sigma = Ok 1.
Proof.
  rewrite (gaussian_eq x x sigma 0) by apply sqeuclidean_self.
  f_equal. replace (- (0 / 2 * sigma ^ 2)) with 0 by lra. apply exp_0.
Qed.

Lemma gaussian_total (x y : vec) (sigma : R) :
  List.length x = List.length y ->
  exists g, gaussian x y sigma = Ok g /\ 0 < g.
Proof.
  intros H. destruct (sqeuclidean_total x y H) as [d [Hd _]].
  eexists. split; [apply gaussian_eq; exact Hd | apply exp_pos].
Qed.

(** With the default [sigma = 1] the code and the documented formula
    coincide. *)
Lemma gaussian_sigma_1 (x y : vec) : gaussian x y 1 = Spec.gaussian x y 1.
Proof.
  unfold gaussian, Spec.gaussian.
  destruct (sqeuclidean x y) as [d|e]; simpl; [|reflexivity].
  do 2 f_equal. field.
Qed.

Lemma sqeuclidean_0_1 : sqeuclidean [0] [1] = Ok 1.
Proof. unfold sqeuclidean. simpl. f_equal. lra. Qed.

(** C6: at [x = (0,)], [y = (1,)], [sigma = 2] the code returns [exp(-2)]
    (it multiplies by [sigma^2]), whereas the documented Gaussian
    [exp(-||x-y||^2 / (2 sigma^2))] is [exp(-1/8)]; the two differ. *)
Theorem gaussian_multiplies_by_sigma_squared :
  gaussian [0] [1] 2 = Ok (exp (- 2)) /\
  Spec.gaussian [0] [1] 2 = Ok (exp (- (1 / 8))) /\
  gaussian [0] [1] 2 <> Spec.gaussian [0] [1] 2.
Proof.
  assert (Hc : gaussian [0] [1] 2 = Ok (exp (- 2))).
  { rewrite (gaussian_eq _ _ _ 1) by apply sqeuclidean_0_1.
    do 2 f_equal. lra. }
  assert (Hs : Spec.gaussian [0] [1] 2 = Ok (exp (- (1 / 8)))).
  { unfold Spec.gaussian. rewrite sqeuclidean_0_1. simpl.
    do 2 f_equal. lra. }
  repeat split; try assumption.
  rewrite Hc, Hs. intros H. injection H as H.
  apply exp_inv in H. lra.
Qed.

(** C7: on equal-length vectors the Gaussian shortcut [2 - 2 K(x,y)] of
    [kernel_dist] and the general formula [K(x,x) - 2 K(x,y) + K(y,y)], with
    the same Gaussian kernel and the same [sigma], both return, and their
    values agree to within [1e-8] (they are equal). *)
Theorem gaussian_shortcut_agrees (kw : kwargs) (x y : vec) :
  List.length x = List.length y ->
  exists d1 d2,
    kernel_dist (Some gaussian_fn) kw x y = Ok d1 /\
    induced_dist (fun a b => gaussian a b (kw_get kw "sigma" 1)) x y = Ok d2 /\
    d1 = d2 /\ Rabs (d1 - d2) < 1 / 100000000.
Proof.
  intros H.
  destruct (gaussian_total x y (kw_get kw "sigma" 1) H) as [g [Hg _]].
  exists (2 - 2 * g), (1 - 2 * g + 1).
  split; [|split; [|split]].
  - simpl. unfold gaussian_shortcut. rewrite Hg. reflexivity.
  - unfold induced_dist. rewrite !gaussian_self, Hg. reflexivity.
  - lra.
  - replace (2 - 2 * g - (1 - 2 * g + 1)) with 0 by lra.
    rewrite Rabs_R0. lra.
Qed.

Lemma gaussian_shortcut_agrees_witness :
  exists d1 d2,
    kernel_dist (Some gaussian_fn) [] [1; 2; 3; 4; 5] [6; 5; 4; 3; 2] = Ok d1 /\
    induced_dist (fun a b => gaussian a b (kw_get [] "sigma" 1))
      [1; 2; 3; 4; 5] [6; 5; 4; 3; 2] = Ok d2 /\
    d1 = d2 /\ Rabs (d1 - d2) < 1 / 100000000.
Proof.
  apply (gaussian_shortcut_agrees [] [1; 2; 3; 4; 5] [6; 5; 4; 3; 2]).
  reflexivity.
Defined.

(** The general branch of [kernel_dist] with [partial(gaussian, **kw)]
    is the same three-term formula whenever [kw] only names [sigma]. *)
Lemma induced_dist_partial_gaussian (kw : kwargs) (x y : vec) :
  kw_only kw ["sigma"%string] = true ->
  induced_dist (fun a b => call gaussian_fn a b kw) x y =
  induced_dist (fun a b => gaussian a b (kw_get kw "sigma" 1)) x y.
Proof. intros H. unfold induced_dist. simpl. rewrite H. reflexivity. Qed.

(** *** The circular kernel *)

Lemma math_acos_in (x : R) : -1 <= x <= 1 -> math_acos x = Ok (acos x).
Proof.
  intros [H1 H2]. unfold math_acos.
  destruct (Rle_dec (-1) x); [|contradiction].
  destruct (Rle_dec x 1); [reflexivity|contradiction].
Qed.

Lemma math_acos_out (x : R) : x < -1 -> math_acos x = Raise MathDomainError.
Proof.
  intros H. unfold math_acos. destruct (Rle_dec (-1) x); [lra|reflexivity].
Qed.

Lemma math_sqrt_in (x : R) : 0 <= x -> math_sqrt x = Ok (sqrt x).
Proof.
  intros H. unfold math_sqrt. destruct (Rle_dec 0 x); [reflexivity|contradiction].
Qed.

(** Inside the support ([r <= 1]) the code evaluates the closed form. *)
Lemma circular_closed_form (x y : vec) (sigma d : R) :
  euclidean x y = Ok d -> 0 <= d / sigma <= 1 ->
  circular x y sigma =
  Ok (2 / PI * acos (- (d / sigma))
      - 2 / PI * (d / sigma) * sqrt (1 - (d / sigma) ^ 2)).
Proof.
  intros Hd [H0 H1]. unfold circular. rewrite Hd. simpl.
  rewrite math_acos_in by lra. simpl.
  rewrite math_sqrt_in by nra. reflexivity.
Qed.

(** For [r < 1] this is the value the specification gives. *)
Lemma circular_inside (x y : vec) (sigma : R) :
  List.length x = List.length y -> 0 < sigma ->
  forall d, euclidean x y = Ok d -> d / sigma < 1 ->
  circular x y sigma = Spec.circular x y sigma /\
  circular x y sigma =
  Ok (2 / PI * acos (- (d / sigma))
      - 2 / PI * (d / sigma) * sqrt (1 - (d / sigma) ^ 2)).
Proof.
  intros Hlen Hs d Hd Hr.
  destruct (euclidean_total x y Hlen) as [d' [Hd' Hpos]].
  rewrite Hd in Hd'. injection Hd' as <-.
  assert (0 <= d / sigma).
  { apply Rmult_le_pos; [lra|]. left. apply Rinv_0_lt_compat. lra. }
  split.
  - rewrite (circular_closed_form x y sigma d) by (try assumption; lra).
    unfold Spec.circular. rewrite Hd. simpl.
    destruct (Rlt_dec (d / sigma) 1); [reflexivity|contradiction].
  - apply circular_closed_form; [assumption|lra].
Qed.

(** On the boundary [r = 1] the code returns [2]. *)
Lemma circular_on_boundary (x y : vec) (sigma d : R) :
  euclidean x y = Ok d -> d / sigma = 1 -> circular x y sigma = Ok 2.
Proof.
  intros Hd Hr.
  rewrite (circular_closed_form x y sigma d) by (try assumption; lra).
  rewrite Hr. f_equal.
  rewrite acos_opp, acos_1.
  replace (1 - 1 ^ 2) with 0 by lra. rewrite sqrt_0.
  field. apply PI_neq0.
Qed.

(** Beyond the boundary ([r > 1]) [math.acos] raises. *)
Lemma circular_outside (x y : vec) (sigma d : R) :
  euclidean x y = Ok d -> 1 < d / sigma ->
  circular x y sigma = Raise MathDomainError.
Proof.
  intros Hd Hr. unfold circular. rewrite Hd. simpl.
  rewrite math_acos_out by lra. reflexivity.
Qed.

(** Hence from [r = 1] on the code never returns [0]. *)
Lemma circular_never_zero (x y : vec) (sigma d : R) :
  euclidean x y = Ok d -> 1 <= d / sigma -> circular x y sigma <> Ok 0.
Proof.
  intros Hd [Hr|Hr].
  - rewrite (circular_outside x y sigma d) by assumption. discriminate.
  - rewrite (circular_on_boundary x y sigma d) by auto.
    intros H. injection H as H. lra.
Qed.

Lemma euclidean_0_1 : euclidean [0] [1] = Ok 1.
Proof. unfold euclidean. rewrite sqeuclidean_0_1. simpl. f_equal. apply sqrt_1. Qed.

Lemma euclidean_0_2 : euclidean [0] [2] = Ok 2.
Proof.
  unfold euclidean, sqeuclidean. simpl. f_equal.
  replace ((0 - 2) * (0 - 2) + 0) with (2 * 2) by lra.
  apply sqrt_square. lra.
Qed.

(** C8: with [sigma = 1], at distance [1] ([r = 1]) the code returns [2] and
    at distance [2] ([r = 2]) it raises a math domain error, whereas the
    documented kernel is [0] from [r = 1] on. *)
Theorem circular_has_no_cutoff :
  circular [0] [1] 1 = Ok 2 /\
  circular [0] [2] 1 = Raise MathDomainError /\
  Spec.circular [0] [1] 1 = Ok 0 /\
  Spec.circular [0] [2] 1 = Ok 0.
Proof.
  split; [|split; [|split]].
  - apply (circular_on_boundary _ _ _ 1); [apply euclidean_0_1 | lra].
  - apply (circular_outside _ _ _ 2); [apply euclidean_0_2 | lra].
  - unfold Spec.circular. rewrite euclidean_0_1. simpl.
    destruct (Rlt_dec (1 / 1) 1); [lra | reflexivity].
  - unfold Spec.circular. rewrite euclidean_0_2. simpl.
    destruct (Rlt_dec (2 / 1) 1); [lra | reflexivity].
Qed.

End KernelFacts.

(** ** Centroids *)

Module CentroidFacts.
Import Centroids.

(** What the kernel update computes, for any class attribute [kernel]. *)
Lemma KernelCentroid__add__with_eq (K : vec -> vec -> result R)
  (c : vec) (n : Z) (s : R) (other : centroid) (k : R) :
  List.length c = List.length (center other) ->
  K c (center other) = Ok k ->
  exists c',
    KernelCentroid__add__with K (KernelCentroid c n s) other
      = Ok (KernelCentroid c' (n + 1) (s + k)) /\
    List.length c' = List.length c /\
    forall i, (i < List.length c)%nat ->
      nth i c' 0 = nth i c 0 + (nth i (center other) 0 - nth i c 0) / (s + k).
Proof.
  intros Hlen HK. unfold KernelCentroid__add__with. simpl. rewrite HK. simpl.
  destruct (zip_with_total Rminus (center other) c (eq_sym Hlen)) as [d Hd].
  unfold vsub. rewrite Hd. simpl.
  destruct (zip_with_length _ _ _ _ Hd) as [_ Hdl].
  assert (Hl : List.length c = List.length (vdiv d (s + k))).
  { rewrite vdiv_length. congruence. }
  destruct (zip_with_total Rplus c _ Hl) as [c' Hc'].
  unfold vadd. rewrite Hc'. simpl.
  exists c'. split; [reflexivity|]. split.
  - apply (zip_with_length _ _ _ _ Hc').
  - intros i Hi. rewrite (zip_with_nth _ _ _ _ Hc' i Hi).
    rewrite vdiv_nth by lia.
    rewrite (zip_with_nth _ _ _ _ Hd i) by lia. reflexivity.
Qed.

(** C2: absorbing a point [p] (the center of [other]) into a kernel
    centroid [(center, count, size)] returns a new kernel centroid with
    [size_new = size + K(center, p)], [count_new = count + 1] and, in every
    coordinate, [center_new = center + (p - center) / size_new].  The
    operation is a function from values to a value: the centroid it is
    applied to is not changed. *)
Theorem kernel_absorb (K : vec -> vec -> result R)
  (c : vec) (n : Z) (s : R) (other : centroid) (k : R) :
  List.length c = List.length (center other) ->
  K c (center other) = Ok k ->
  exists c',
    KernelCentroid__add__with K (KernelCentroid c n s) other
      = Ok (KernelCentroid c' (n + 1) (s + k)) /\
    List.length c' = List.length c /\
    forall i, (i < List.length c)%nat ->
      nth i c' 0 = nth i c 0 + (nth i (center other) 0 - nth i c 0) / (s + k).
Proof. apply KernelCentroid__add__with_eq. Qed.

Lemma kernel_absorb_witness :
  exists c',
    KernelCentroid__add__with kernel (KernelCentroid [0] 3 2)
      (KernelCentroid [1] 0 0)
      = Ok (KernelCentroid c' (3 + 1)
              (2 + exp (- (((0 - 1) * (0 - 1) + 0) / 2 * 1 ^ 2)))) /\
    List.length c' = List.length [0] /\
    forall i, (i < List.length [0])%nat ->
      nth i c' 0 = nth i [0] 0
        + (nth i (center (KernelCentroid [1] 0 0)) 0 - nth i [0] 0)
          / (2 + exp (- (((0 - 1) * (0 - 1) + 0) / 2 * 1 ^ 2))).
Proof.
  apply (kernel_absorb kernel [0] 3 2 (KernelCentroid [1] 0 0)
           (exp (- (((0 - 1) * (0 - 1) + 0) / 2 * 1 ^ 2))));
    reflexivity.
Defined.

(** [old.add(c)] on a kernel centroid is that update with the Gaussian
    kernel at [sigma = 1]. *)
Lemma add_kernel_dispatch (c : vec) (n : Z) (s : R) (other : centroid) :
  add (KernelCentroid c n s) other
  = KernelCentroid__add__with (fun a b => Kernel.gaussian a b 1)
      (KernelCentroid c n s) other.
Proof. reflexivity. Qed.

Lemma add_kernel_total (c : vec) (n : Z) (s : R) (other : centroid) :
  List.length c = List.length (center other) ->
  exists c' k,
    add (KernelCentroid c n s) other = Ok (KernelCentroid c' (n + 1) (s + k))
    /\ Kernel.gaussian c (center other) 1 = Ok k /\ 0 < k
    /\ List.length c' = List.length c.
Proof.
  intros Hlen.
  destruct (KernelFacts.gaussian_total c (center other) 1 Hlen) as [k [Hk Hpos]].
  destruct (KernelCentroid__add__with_eq kernel c n s other k Hlen Hk)
    as [c' [H1 [H2 _]]].
  exists c', k. repeat split; assumption.
Qed.

(** What the kernel merge computes. *)
Lemma KernelCentroid_merge_eq (ca : vec) (na : Z) (sa : R)
  (cb : vec) (nb : Z) (sb : R) :
  List.length ca = List.length cb ->
  exists c,
    merge (KernelCentroid ca na sa) (KernelCentroid cb nb sb)
      = Ok (KernelCentroid c (na + nb) (sa + sb)) /\
    Spec.weighted_average ca sa cb sb = Ok c /\
    List.length c = List.length ca /\
    forall i, (i < List.length ca)%nat ->
      nth i c 0 = (nth i ca 0 * sa + nth i cb 0 * sb) / (sa + sb).
Proof.
  intros Hlen.
  assert (Hl : List.length (vscale ca sa) = List.length (vscale cb sb)).
  { rewrite !vscale_length. exact Hlen. }
  destruct (zip_with_total Rplus _ _ Hl) as [xy Hxy].
  exists (vdiv xy (sa + sb)).
  destruct (zip_with_length _ _ _ _ Hxy) as [_ Hxyl].
  rewrite vscale_length in Hxyl.
  split; [|split; [|split]].
  - unfold merge, KernelCentroid_merge. simpl. unfold vadd.
    rewrite Hxy. reflexivity.
  - unfold Spec.weighted_average, vadd. rewrite Hxy. reflexivity.
  - rewrite vdiv_length. exact Hxyl.
  - intros i Hi. rewrite vdiv_nth by lia.
    rewrite (zip_with_nth _ _ _ _ Hxy i) by (rewrite vscale_length; lia).
    rewrite !vscale_nth by lia. reflexivity.
Qed.

(** C3: merging kernel centroids [a] and [b] with [size_a + size_b <> 0]
    returns a centroid whose center is the size-weighted average of the two
    centers, whose count is [count_a + count_b] and whose size is
    [size_a + size_b]. *)
Theorem kernel_merge (ca : vec) (na : Z) (sa : R)
  (cb : vec) (nb : Z) (sb : R) :
  List.length ca = List.length cb ->
  sa + sb <> 0 ->
  exists c,
    merge (KernelCentroid ca na sa) (KernelCentroid cb nb sb)
      = Ok (KernelCentroid c (na + nb) (sa + sb)) /\
    Spec.weighted_average ca sa cb sb = Ok c /\
    List.length c = List.length ca /\
    forall i, (i < List.length ca)%nat ->
      nth i c 0 = (nth i ca 0 * sa + nth i cb 0 * sb) / (sa + sb) /\
      nth i c 0 * (sa + sb) = nth i ca 0 * sa + nth i cb 0 * sb.
Proof.
  intros Hlen Hnz.
  destruct (KernelCentroid_merge_eq ca na sa cb nb sb Hlen)
    as [c [H1 [H2 [H3 H4]]]].
  exists c. repeat split; try assumption.
  - apply H4. assumption.
  - rewrite (H4 i) by assumption. field. exact Hnz.
Qed.

Lemma kernel_merge_witness :
  exists c,
    merge (KernelCentroid [0; 4] 2 1) (KernelCentroid [2; 0] 5 3)
      = Ok (KernelCentroid c (2 + 5) (1 + 3)) /\
    Spec.weighted_average [0; 4] 1 [2; 0] 3 = Ok c /\
    List.length c = List.length [0; 4] /\
    forall i, (i < List.length [0; 4])%nat ->
      nth i c 0 = (nth i [0; 4] 0 * 1 + nth i [2; 0] 0 * 3) / (1 + 3) /\
      nth i c 0 * (1 + 3) = nth i [0; 4] 0 * 1 + nth i [2; 0] 0 * 3.
Proof.
  apply (kernel_merge [0; 4] 2 1 [2; 0] 5 3); [reflexivity | lra].
Defined.

(** *** The plain centroid *)

Lemma unmoved (c : vec) (k : R) :
  forall o, List.length c = List.length o ->
    vadd c (vdiv (map (fun a => a - a) o) k) = Ok c.
Proof.
  unfold vadd. induction c as [|a c IH]; intros [|b o] H; simpl in H;
    try discriminate; simpl; [reflexivity|].
  injection H as H. rewrite (IH _ H). simpl.
  replace (a + (b - b) / k) with a; [reflexivity|].
  unfold Rdiv. rewrite Rminus_diag, Rmult_0_l. symmetry. apply Rplus_0_r.
Qed.

(** The displacement [other - array(other)] is zero, so the plain update
    leaves the center where it was and only counts. *)
Lemma Centroid__add__eq (c : vec) (n : Z) (other : centroid) :
  List.length c = List.length (center other) ->
  add (Centroid c n) other = Ok (Centroid c (n + 1)).
Proof.
  intros Hlen. unfold add, __add__, Centroid__add__. simpl.
  rewrite vsub_self. simpl. rewrite unmoved by exact Hlen. reflexivity.
Qed.

(** C4: absorbing the point [(1,)] into the plain centroid [((0,), 0)]
    returns [((0,), 1)]: the count is incremented but the center has not
    moved, although the point differs from it and the running mean
    [center + (p - center)/(count + 1)] is [(1,)]. *)
Theorem plain_absorb_does_not_move :
  add (Centroid [0] 0) (factory Centroid_cls [1]) = Ok (Centroid [0] 1) /\
  Spec.running_mean [0] [1] 0 = Ok [0 + (1 - 0) / 1] /\
  [0 + (1 - 0) / 1] <> [0].
Proof.
  split; [|split].
  - apply (Centroid__add__eq [0] 0). reflexivity.
  - reflexivity.
  - intros H. injection H as H. lra.
Qed.

(** The quotient of the plain merge reads the unbound names [a] and [b]. *)
Lemma Centroid_merge_raises (ca : vec) (na : Z) (other : centroid) :
  List.length ca = List.length (center other) ->
  merge (Centroid ca na) other = Raise NameError.
Proof.
  intros Hlen. unfold merge, Centroid_merge. simpl.
  assert (Hi : isinstance other Centroid_cls = true) by (destruct other; reflexivity).
  rewrite Hi. simpl.
  assert (Hl : List.length (vscale ca (IZR na))
               = List.length (vscale (center other) (IZR (count other)))).
  { rewrite !vscale_length. exact Hlen. }
  destruct (zip_with_total Rplus _ _ Hl) as [xy Hxy].
  unfold vadd. rewrite Hxy. reflexivity.
Qed.

(** C5: merging the plain centroids [((0,), 1)] and [((2,), 1)], whose
    counts sum to [2], raises [NameError]; no centroid is returned, whereas
    the count-weighted average of the two centers exists (it is [(1,)]). *)
Theorem plain_merge_raises :
  merge (Centroid [0] 1) (Centroid [2] 1) = Raise NameError /\
  exists c, Spec.weighted_average [0] 1 [2] 1 = Ok c /\ c = [1].
Proof.
  split.
  - apply (Centroid_merge_raises [0] 1 (Centroid [2] 1)). reflexivity.
  - eexists. split; [reflexivity|]. unfold vdiv. simpl.
    replace ((0 * 1 + 2 * 1) / (1 + 1)) with 1 by lra. reflexivity.
Qed.

(** *** Across the two kinds *)

Lemma merge_kernel_plain (ck : vec) (nk : Z) (sk : R) (cp : vec) (np : Z) :
  merge (KernelCentroid ck nk sk) (Centroid cp np) = Raise TypeError.
Proof. reflexivity. Qed.

Lemma add_plain_kernel (cp : vec) (np : Z) (ck : vec) (nk : Z) (sk : R) :
  List.length cp = List.length ck ->
  add (Centroid cp np) (KernelCentroid ck nk sk) = Ok (Centroid cp (np + 1)).
Proof. intros H. apply Centroid__add__eq. exact H. Qed.

(** C9 (counterexample): for the plain centroid [((0,), 0)] and the kernel
    centroid [((0,), 0, 0.0)], absorbing across the kinds returns a centroid
    in both directions, and [merge(p, k)] raises [NameError]; only
    [merge(k, p)] is a type-mismatch error.  So the four operations do not
    all fail with a type-mismatch error. *)
Lemma cross_kind_absorb_returns :
  add (Centroid [0] 0) (KernelCentroid [0] 0 0) = Ok (Centroid [0] 1) /\
  (exists c s,
     add (KernelCentroid [0] 0 0) (Centroid [0] 0)
       = Ok (KernelCentroid c 1 s)) /\
  merge (Centroid [0] 0) (KernelCentroid [0] 0 0) = Raise NameError /\
  merge (KernelCentroid [0] 0 0) (Centroid [0] 0) = Raise TypeError /\
  ~ (merge (Centroid [0] 0) (KernelCentroid [0] 0 0) = Raise TypeError /\
     merge (KernelCentroid [0] 0 0) (Centroid [0] 0) = Raise TypeError /\
     add (Centroid [0] 0) (KernelCentroid [0] 0 0) = Raise TypeError /\
     add (KernelCentroid [0] 0 0) (Centroid [0] 0) = Raise TypeError).
Proof.
  assert (H1 : add (Centroid [0] 0) (KernelCentroid [0] 0 0)
               = Ok (Centroid [0] 1)).
  { apply (add_plain_kernel [0] 0 [0] 0 0). reflexivity. }
  split; [exact H1|]. split; [|split; [|split]].
  - destruct (add_kernel_total [0] 0 0 (Centroid [0] 0) eq_refl)
      as [c [k [H _]]].
    exists c, (0 + k). exact H.
  - apply (Centroid_merge_raises [0] 0 (KernelCentroid [0] 0 0)). reflexivity.
  - reflexivity.
  - intros [_ [_ [H _]]]. rewrite H1 in H. discriminate.
Qed.

(** C9 (amended): for a plain centroid [p] and a kernel centroid [k] with
    centers of the same dimension, [merge(k, p)] fails with a type-mismatch
    error, while absorbing across the kinds returns: [absorb(k, p)] is the
    kernel update of [k] by the center of [p], and [absorb(p, k)] is a plain
    centroid with count [count_p + 1]. *)
Theorem cross_kind (cp : vec) (np : Z) (ck : vec) (nk : Z) (sk : R) :
  List.length cp = List.length ck ->
  merge (KernelCentroid ck nk sk) (Centroid cp np) = Raise TypeError /\
  (exists c g,
     Kernel.gaussian ck cp 1 = Ok g /\
     add (KernelCentroid ck nk sk) (Centroid cp np)
       = Ok (KernelCentroid c (nk + 1) (sk + g)) /\
     List.length c = List.length ck /\
     forall i, (i < List.length ck)%nat ->
       nth i c 0 = nth i ck 0 + (nth i cp 0 - nth i ck 0) / (sk + g)) /\
  (exists c,
     add (Centroid cp np) (KernelCentroid ck nk sk)
       = Ok (Centroid c (np + 1))).
Proof.
  intros Hlen. split; [reflexivity|]. split.
  - destruct (KernelFacts.gaussian_total ck cp 1 (eq_sym Hlen)) as [g [Hg _]].
    destruct (KernelCentroid__add__with_eq kernel ck nk sk (Centroid cp np) g
                (eq_sym Hlen) Hg) as [c [H1 [H2 H3]]].
    exists c, g. repeat split; assumption.
  - exists cp. apply add_plain_kernel. exact Hlen.
Qed.

Lemma cross_kind_witness :
  merge (KernelCentroid [1; 2] 0 0) (Centroid [3; 4] 0) = Raise TypeError /\
  (exists c g,
     Kernel.gaussian [1; 2] [3; 4] 1 = Ok g /\
     add (KernelCentroid [1; 2] 0 0) (Centroid [3; 4] 0)
       = Ok (KernelCentroid c (0 + 1) (0 + g)) /\
     List.length c = List.length [1; 2] /\
     forall i, (i < List.length [1; 2])%nat ->
       nth i c 0 = nth i [1; 2] 0 + (nth i [3; 4] 0 - nth i [1; 2] 0) / (0 + g)) /\
  (exists c,
     add (Centroid [3; 4] 0) (KernelCentroid [1; 2] 0 0)
       = Ok (Centroid c (0 + 1))).
Proof.
  apply (cross_kind [3; 4] 0 [1; 2] 0 0). reflexivity.
Defined.

End CentroidFacts.

(** ** The index *)

Module FastPairFacts.
Import Centroids FastPair.

Lemma vec_eqb_refl (x : vec) : vec_eqb x x = true.
Proof. unfold vec_eqb. destruct (vec_eq_dec x x); congruence. Qed.

Lemma vec_eqb_neq (x y : vec) : x <> y -> vec_eqb x y = false.
Proof. intros H. unfold vec_eqb. destruct (vec_eq_dec x y); congruence. Qed.

Lemma replace_first_length (old new : centroid) :
  forall l l', replace_first old new l = Some l' ->
    List.length l' = List.length l.
Proof.
  induction l as [|x l IH]; intros l' H; simpl in H; [discriminate|].
  destruct (__eq__ x old).
  - inversion H; subst. reflexivity.
  - destruct (replace_first old new l) as [r|]; simpl in H; [|discriminate].
    inversion H; subst. simpl. f_equal. apply IH. reflexivity.
Qed.

Lemma remove_first_length (c : centroid) :
  forall l l', remove_first c l = Some l' ->
    S (List.length l') = List.length l.
Proof.
  induction l as [|x l IH]; intros l' H; simpl in H; [discriminate|].
  destruct (__eq__ x c).
  - inversion H; subst. reflexivity.
  - destruct (remove_first c l) as [r|]; simpl in H; [|discriminate].
    inversion H; subst. simpl. f_equal. apply IH. reflexivity.
Qed.

Lemma _update_point_len (fp fp' : t) (old new : centroid) :
  _update_point fp old new = Ok fp' ->
  __len__ fp' = __len__ fp /\ dist fp' = dist fp.
Proof.
  unfold _update_point, __len__. intros H.
  destruct (replace_first old new (points fp)) as [l|] eqn:E; [|discriminate].
  inversion H; subst. simpl. split; [|reflexivity].
  eapply replace_first_length; eassumption.
Qed.

Lemma remove_len (fp fp' : t) (c : centroid) :
  remove fp c = Ok fp' ->
  S (__len__ fp') = __len__ fp /\ dist fp' = dist fp.
Proof.
  unfold remove, __len__. intros H.
  destruct (remove_first c (points fp)) as [l|] eqn:E; [|discriminate].
  inversion H; subst. simpl. split; [|reflexivity].
  eapply remove_first_length; eassumption.
Qed.

Lemma insert_len (fp fp' : t) (c : centroid) :
  insert fp c = Ok fp' ->
  __len__ fp' = S (__len__ fp) /\ dist fp' = dist fp.
Proof.
  unfold insert, __len__. intros H.
  destruct (__contains__ fp c); [discriminate|].
  inversion H; subst. simpl. rewrite length_app. simpl. split; [lia|reflexivity].
Qed.

End FastPairFacts.

(** ** The engine *)

Module BaseFacts.
Import Centroids Base FastPairFacts.

(** One cycle keeps [kmax]; the effect of each step on the live count. *)
Lemma _step_one_len (self s' : AddC) (c : centroid) :
  _step_one self c = Ok s' ->
  __len__ s' = __len__ self /\ kmax s' = kmax self
  /\ npoints s' = npoints self
  /\ centroid_factory s' = centroid_factory self.
Proof.
  unfold _step_one, __len__. intros H.
  destruct (0 <? FastPair.__len__ (fastpair self))%nat.
  - destruct (FastPair.sdist (fastpair self) c) as [ds|]; [|discriminate].
    simpl in H.
    destruct (FastPair.min_by_key ds) as [m|]; [|discriminate]. simpl in H.
    destruct (add (snd m) c) as [moved|]; [|discriminate]. simpl in H.
    destruct (FastPair._update_point (fastpair self) (snd m) moved)
      as [fp|] eqn:E; [|discriminate].
    inversion H; subst. simpl.
    destruct (_update_point_len _ _ _ _ E) as [Hl _]. auto.
  - inversion H; subst. auto.
Qed.

Lemma _step_two_len (self s' : AddC) :
  _step_two self = Ok s' ->
  kmax s' = kmax self /\ npoints s' = npoints self
  /\ centroid_factory s' = centroid_factory self
  /\ __len__ s' =
     if (kmax self <=? Z.of_nat (__len__ self))%Z && (1 <? __len__ self)%nat
     then Nat.pred (__len__ self) else __len__ self.
Proof.
  unfold _step_two, __len__. intros H.
  destruct ((kmax self <=? Z.of_nat (FastPair.__len__ (fastpair self)))%Z
            && (1 <? FastPair.__len__ (fastpair self))%nat).
  - destruct (FastPair.closest_pair (fastpair self)) as [cp|]; [|discriminate].
    simpl in H.
    destruct (FastPair.remove (fastpair self) (snd (snd cp))) as [fp1|] eqn:E1;
      [|discriminate]. simpl in H.
    destruct (merge (fst (snd cp)) (snd (snd cp))) as [merged|];
      [|discriminate]. simpl in H.
    destruct (FastPair._update_point fp1 (fst (snd cp)) merged) as [fp2|] eqn:E2;
      [|discriminate].
    inversion H; subst. simpl.
    destruct (remove_len _ _ _ E1) as [Hr _].
    destruct (_update_point_len _ _ _ _ E2) as [Hu _].
    repeat split; try reflexivity. lia.
  - inversion H; subst. auto.
Qed.

Lemma _step_three_len (self s' : AddC) (c : centroid) :
  _step_three self c = Ok s' ->
  kmax s' = kmax self /\ npoints s' = npoints self
  /\ centroid_factory s' = centroid_factory self
  /\ __len__ s' = S (__len__ self).
Proof.
  unfold _step_three, __len__. intros H.
  destruct (FastPair.insert (fastpair self) c) as [fp|] eqn:E; [|discriminate].
  inversion H; subst. simpl.
  destruct (insert_len _ _ _ E) as [Hl _]. auto.
Qed.

(** The live count after one successful [__add__]: unchanged when the merge
    fired, one more otherwise. *)
Lemma __add__len (self s' : AddC) (p : vec) :
  __add__ self p = Ok s' ->
  kmax s' = kmax self /\ npoints s' = (npoints self + 1)%Z
  /\ centroid_factory s' = centroid_factory self
  /\ __len__ s' =
     if (kmax self <=? Z.of_nat (__len__ self))%Z && (1 <? __len__ self)%nat
     then __len__ self else S (__len__ self).
Proof.
  unfold __add__. intros H.
  destruct (_step_one self _) as [s1|] eqn:E1; [|discriminate]. simpl in H.
  destruct (_step_two s1) as [s2|] eqn:E2; [|discriminate]. simpl in H.
  destruct (_step_three s2 _) as [s3|] eqn:E3; [|discriminate]. simpl in H.
  inversion H; subst. simpl.
  destruct (_step_one_len _ _ _ E1) as [L1 [K1 [N1 F1]]].
  destruct (_step_two_len _ _ E2) as [K2 [N2 [F2 L2]]].
  destruct (_step_three_len _ _ _ E3) as [K3 [N3 [F3 L3]]].
  rewrite K1, L1 in L2.
  repeat split; try congruence.
  change (__len__ s3 =
          if (kmax self <=? Z.of_nat (__len__ self))%Z
             && (1 <? __len__ self)%nat
          then __len__ self else S (__len__ self)).
  rewrite L3, L2.
  destruct ((kmax self <=? Z.of_nat (__len__ self))%Z) eqn:A;
    destruct ((1 <? __len__ self)%nat) eqn:B; simpl; try reflexivity.
  apply Nat.ltb_lt in B. lia.
Qed.

(** The live count along a successful batch, from any state whose count is
    [min(n0, max(kmax, 2))]. *)
Lemma batch_len :
  forall (points : list vec) (self s' : AddC) (n0 : nat),
    batch self points = Ok s' ->
    Z.of_nat (__len__ self) = Z.min (Z.of_nat n0) (Z.max (kmax self) 2) ->
    kmax s' = kmax self /\
    npoints s' = (npoints self + Z.of_nat (List.length points))%Z /\
    Z.of_nat (__len__ s') =
      Z.min (Z.of_nat (n0 + List.length points)) (Z.max (kmax self) 2).
Proof.
  induction points as [|p rest IH]; intros self s' n0 H Hinv; simpl in H.
  - inversion H; subst. simpl. rewrite Nat.add_0_r. repeat split; [lia|exact Hinv].
  - destruct (__add__ self p) as [s1|] eqn:E; [|discriminate]. simpl in H.
    destruct (__add__len _ _ _ E) as [K1 [N1 [_ L1]]].
    assert (Hinv1 : Z.of_nat (__len__ s1)
                    = Z.min (Z.of_nat (S n0)) (Z.max (kmax s1) 2)).
    { rewrite K1, L1.
      destruct (Z.leb_spec (kmax self) (Z.of_nat (__len__ self)));
        destruct (Nat.ltb_spec 1 (__len__ self)); cbn [andb]; lia. }
    destruct (IH s1 s' (S n0) H Hinv1) as [K2 [N2 L2]].
    rewrite K1 in *. simpl List.length.
    repeat split; [exact K2 | lia |].
    rewrite L2. f_equal. lia.
Qed.

(** Below capacity the merge never fires: the index grows by one entry per
    point. *)
Lemma batch_below_capacity (kmax0 : Z) (d : vec -> vec -> result R)
  (f : cls) (points : list vec) (s' : AddC) :
  batch (__init__ kmax0 d f) points = Ok s' ->
  (Z.of_nat (List.length points) <= kmax0)%Z ->
  __len__ s' = List.length points.
Proof.
  intros H Hle.
  destruct (batch_len points _ s' 0%nat H) as [_ [_ L]]; [simpl; lia|].
  simpl in L. lia.
Qed.

(** [batch] is repeated single-point ingestion. *)
Lemma batch_app (l1 l2 : list vec) :
  forall self, batch self (l1 ++ l2) = (s <- batch self l1 ;; batch s l2).
Proof.
  induction l1 as [|p l1 IH]; intros self; simpl; [reflexivity|].
  destruct (__add__ self p) as [s1|]; simpl; [apply IH | reflexivity].
Qed.

Lemma batch_one (self : AddC) (p : vec) :
  batch self [p] = __add__ self p.
Proof. simpl. destruct (__add__ self p); reflexivity. Qed.

(** *** Ingestion evaluated on concrete streams *)

Section Concrete.
Import Examples.

Lemma g01_bounds : 0 < g01 < 1.
Proof.
  unfold g01. split; [apply exp_pos|].
  assert (H : exp (- (((0 - 1) * (0 - 1) + 0) / 2 * 1 ^ 2)) < exp 0)
    by (apply exp_increasing; simpl; lra).
  rewrite exp_0 in H. exact H.
Qed.

Lemma g10_eq : exp (- (((1 - 0) * (1 - 0) + 0) / 2 * 1 ^ 2)) = g01.
Proof. unfold g01. f_equal. simpl. lra. Qed.

Lemma moved0_facts :
  (0 + (1 - 0) / (0 + g01)) * g01 = 1 /\ 1 < 0 + (1 - 0) / (0 + g01).
Proof.
  pose proof g01_bounds as [H0 H1].
  assert (E : (0 + (1 - 0) / (0 + g01)) * g01 = 1) by (field; lra).
  split; [exact E|]. nra.
Qed.

Lemma moved0_not_1 : [0 + (1 - 0) / (0 + g01)] <> [1].
Proof.
  destruct moved0_facts as [_ H]. intros E. injection E as E. lra.
Qed.

(** Seen from [(0,)], the singleton at [(1,)] is strictly nearer than the
    centroid that moved beyond it. *)
Lemma nearer_to_0 :
  2 - 2 * exp (- (((0 - 1) * (0 - 1) + 0) / 2 * 1 ^ 2))
  < 2 - 2 * exp (- (((0 - (0 + (1 - 0) / (0 + g01))) *
                     (0 - (0 + (1 - 0) / (0 + g01))) + 0) / 2 * 1 ^ 2)).
Proof.
  destruct moved0_facts as [_ Ha].
  set (a := 0 + (1 - 0) / (0 + g01)) in *.
  assert (exp (- (((0 - a) * (0 - a) + 0) / 2 * 1 ^ 2))
          < exp (- (((0 - 1) * (0 - 1) + 0) / 2 * 1 ^ 2))).
  { apply exp_increasing. simpl. nra. }
  lra.
Qed.

Lemma update_head (d : vec -> vec -> result R) (old new : centroid)
  (l : list centroid) :
  FastPair._update_point {| FastPair.dist := d; FastPair.points := old :: l |}
    old new
  = Ok {| FastPair.dist := d; FastPair.points := new :: l |}.
Proof.
  unfold FastPair._update_point. simpl. unfold __eq__.
  rewrite vec_eqb_refl. reflexivity.
Qed.

Lemma update_second (d : vec -> vec -> result R) (x old new : centroid)
  (l : list centroid) :
  center x <> center old ->
  FastPair._update_point
    {| FastPair.dist := d; FastPair.points := x :: old :: l |} old new
  = Ok {| FastPair.dist := d; FastPair.points := x :: new :: l |}.
Proof.
  intros H. unfold FastPair._update_point. simpl. unfold __eq__.
  rewrite (vec_eqb_neq _ _ H), vec_eqb_refl. reflexivity.
Qed.

Lemma remove_second (d : vec -> vec -> result R) (x c : centroid)
  (l : list centroid) :
  center x <> center c ->
  FastPair.remove {| FastPair.dist := d; FastPair.points := x :: c :: l |} c
  = Ok {| FastPair.dist := d; FastPair.points := x :: l |}.
Proof.
  intros H. unfold FastPair.remove. simpl. unfold __eq__.
  rewrite (vec_eqb_neq _ _ H), vec_eqb_refl. reflexivity.
Qed.

Lemma insert_fresh (fp : FastPair.t) (c : centroid) :
  FastPair.__contains__ fp c = false ->
  FastPair.insert fp c
  = Ok (FastPair.with_points fp (FastPair.points fp ++ [c])).
Proof. intros H. unfold FastPair.insert. rewrite H. reflexivity. Qed.

(** The first point of a fresh engine: steps 1 and 2 are skipped. *)
Lemma first_point (k : Z) (d : vec -> vec -> result R) (f : cls) (p : vec) :
  __add__ (__init__ k d f) p
  = Ok {| kmax := k; npoints := 0 + 1; centroid_factory := f;
          fastpair := {| FastPair.dist := d;
                         FastPair.points := [factory f p] |} |}.
Proof.
  unfold __add__, _step_one, _step_two, _step_three. simpl.
  rewrite andb_false_r. reflexivity.
Qed.

(** The second point: the only centroid moves, nothing is merged (a single
    entry), the point is inserted. *)
Lemma batch_two_points (k : Z) :
  batch (__init__ k default_dist KernelCentroid_cls) [[0]; [1]]
  = Ok (two_points k).
Proof.
  unfold batch. rewrite first_point. cbn [bind factory].
  unfold __add__, _step_one.
  cbn -[Rplus Rminus Rmult Rdiv exp pow Z.add Z.leb vec_eqb
        FastPair._update_point _step_two _step_three].
  rewrite update_head. cbn [bind].
  unfold _step_two.
  cbn -[Rplus Rminus Rmult Rdiv exp pow Z.add Z.leb vec_eqb _step_three].
  rewrite andb_false_r. cbn [bind].
  unfold _step_three. rewrite insert_fresh.
  - reflexivity.
  - cbn -[Rplus Rminus Rmult Rdiv exp pow Z.add Z.leb vec_eqb].
    unfold __eq__. cbn [center]. rewrite vec_eqb_neq; [reflexivity|].
    intros H. apply moved0_not_1. symmetry. exact H.
Qed.

(** A third point at capacity [kmax = 2]: the nearest centroid moves, the
    two stored centroids are merged into one at [(1/2,)], and the point is
    inserted. *)
Lemma three_points_step :
  exists m s,
    __add__ (two_points 2) [0]
    = Ok {| kmax := 2; npoints := 0 + 1 + 1 + 1;
            centroid_factory := KernelCentroid_cls;
            fastpair :=
              {| FastPair.dist := default_dist;
                 FastPair.points :=
                   [KernelCentroid [m] 2 s; KernelCentroid [0] 0 0] |} |}
    /\ m = 1 / 2 /\ s = 2 * g01.
Proof.
  pose proof g01_bounds as [H0 H1].
  destruct moved0_facts as [Ha1 Ha2].
  unfold __add__, _step_one, two_points, moved0.
  cbn -[Rplus Rminus Rmult Rdiv exp pow Z.add Z.leb vec_eqb Rlt_dec
        FastPair._update_point _step_two _step_three].
  destruct (Rlt_dec _ _) as [_|n]; [|exfalso; apply n; apply nearer_to_0].
  cbn -[Rplus Rminus Rmult Rdiv exp pow Z.add Z.leb vec_eqb Rlt_dec
        FastPair._update_point _step_two _step_three].
  rewrite update_second by (apply moved0_not_1).
  cbn [bind]. unfold _step_two.
  cbn -[Rplus Rminus Rmult Rdiv exp pow Z.add vec_eqb Rlt_dec
        FastPair._update_point FastPair.remove _step_three].
  rewrite !g10_eq.
  set (a := 0 + (1 - 0) / (0 + g01)) in *.
  assert (Hb : (1 + (0 - 1) / (0 + g01)) * g01 = g01 - 1) by (field; lra).
  rewrite remove_second; [|cbn [center]; intros E; injection E as E; nra].
  cbn [bind]. rewrite update_head.
  cbn [bind with_fastpair kmax npoints centroid_factory fastpair].
  unfold _step_three. rewrite insert_fresh.
  - cbn -[Rplus Rminus Rmult Rdiv exp pow Z.add vec_eqb].
    do 2 eexists. split; [reflexivity|]. split; [|lra].
    field_simplify_eq; [|lra]. fold a. nra.
  - cbn -[Rplus Rminus Rmult Rdiv exp pow Z.add vec_eqb].
    unfold __eq__. cbn [center]. rewrite vec_eqb_neq; [reflexivity|].
    intros E. injection E as E.
    assert (Hm : (a * (0 + g01) + (1 + (0 - 1) / (0 + g01)) * (0 + g01))
                 / (0 + g01 + (0 + g01)) * (2 * g01) = g01).
    { field_simplify_eq; [|lra]. fold a. nra. }
    rewrite <- E in Hm. lra.
Qed.

Lemma batch_three_points :
  exists e,
    batch (__init__ 2 default_dist KernelCentroid_cls) [[0]; [1]; [0]] = Ok e
    /\ centroids e = [[1 / 2]; [0]].
Proof.
  destruct three_points_step as [m [s [H [Hm _]]]].
  eexists. split.
  - change [[0]; [1]; [0]] with ([[0]; [1]] ++ [[0]]).
    rewrite batch_app, batch_two_points. cbn [bind].
    rewrite batch_one. exact H.
  - unfold centroids. simpl. rewrite Hm. reflexivity.
Qed.

End Concrete.

(** C1 (amended): after a successful ingestion of [n] points into a fresh
    engine, the live centroid count is [min(n, max(kmax, 2))]: it is
    [min(n, kmax)] for every [kmax >= 2], and [min(n, 2)] for [kmax = 1],
    where the merge step is guarded by "more than one entry". *)
Theorem capacity (kmax0 : Z) (d : vec -> vec -> result R) (f : cls)
  (points : list vec) (s' : AddC) :
  batch (__init__ kmax0 d f) points = Ok s' ->
  Z.of_nat (__len__ s')
  = Z.min (Z.of_nat (List.length points)) (Z.max kmax0 2)
  /\ npoints s' = Z.of_nat (List.length points).
Proof.
  intros H.
  destruct (batch_len points _ s' 0%nat H) as [_ [N L]]; [simpl; lia|].
  simpl in *. split; [exact L | lia].
Qed.

Lemma capacity_witness :
  exists e,
    batch (__init__ 2 default_dist KernelCentroid_cls) [[0]; [1]; [0]] = Ok e
    /\ Z.of_nat (__len__ e)
        = Z.min (Z.of_nat (List.length [[0]; [1]; [0]])) (Z.max 2 2)
    /\ npoints e = Z.of_nat (List.length [[0]; [1]; [0]]).
Proof.
  destruct batch_three_points as [e [He _]].
  exists e. split; [exact He|].
  apply (capacity 2 default_dist KernelCentroid_cls [[0]; [1]; [0]] e He).
Defined.

(** C1 (counterexample): with [kmax = 1], ingesting the two points [(0,)]
    and [(1,)] into a fresh default engine succeeds and leaves two live
    centroids, whereas [min(2, 1) = 1]. *)
Lemma capacity_exceeded_at_kmax_1 :
  batch (__init__ 1 default_dist KernelCentroid_cls) [[0]; [1]]
    = Ok (Examples.two_points 1) /\
  __len__ (Examples.two_points 1) = 2%nat /\
  Z.of_nat (__len__ (Examples.two_points 1))
    <> Z.min (Z.of_nat (List.length [[0]; [1]])) 1.
Proof.
  split; [apply batch_two_points|]. split; [reflexivity|].
  simpl. lia.
Qed.

(** *** trim *)

Section Trim.
Import Examples.

Lemma kernel_only_cons (x : centroid) (l : list centroid) :
  kernel_only (x :: l) ->
  (exists c n s, x = KernelCentroid c n s) /\ kernel_only l.
Proof.
  intros H. split.
  - specialize (H x (or_introl eq_refl)). destruct x; [discriminate|].
    eauto.
  - intros c Hc. apply H. right. exact Hc.
Qed.

(** Without a positive size among kernel centroids, [sub] is empty. *)
Lemma positive_sizes_none :
  forall l, kernel_only l ->
    (forall c, In c l -> ~ positive_size c) ->
    positive_sizes l = Ok [].
Proof.
  induction l as [|x l IH]; intros Hk Hn; [reflexivity|].
  destruct (kernel_only_cons _ _ Hk) as [[c [n [s ->]]] Hk'].
  simpl. destruct (Rlt_dec 0 s) as [Hs|_].
  - exfalso. apply (Hn (KernelCentroid c n s)); [left; reflexivity|].
    exists s. split; [reflexivity | exact Hs].
  - apply IH; [exact Hk'|]. intros c' Hc'. apply Hn. right. exact Hc'.
Qed.

Lemma positive_sizes_total :
  forall l, kernel_only l -> exists sub, positive_sizes l = Ok sub.
Proof.
  induction l as [|x l IH]; intros Hk; [exists []; reflexivity|].
  destruct (kernel_only_cons _ _ Hk) as [[c [n [s ->]]] Hk'].
  destruct (IH Hk') as [sub Hsub].
  simpl. rewrite Hsub. destruct (Rlt_dec 0 s); simpl; eauto.
Qed.

(** With one, [sub] is not empty. *)
Lemma positive_sizes_some :
  forall l, kernel_only l ->
    (exists c, In c l /\ positive_size c) ->
    exists s0 sub, positive_sizes l = Ok (s0 :: sub).
Proof.
  induction l as [|x l IH]; intros Hk [c [Hin Hpos]]; [destruct Hin|].
  destruct (kernel_only_cons _ _ Hk) as [[cx [n [s ->]]] Hk'].
  simpl. destruct (Rlt_dec 0 s) as [Hs|Hs].
  - destruct (positive_sizes_total l Hk') as [sub Hsub].
    rewrite Hsub. simpl. eauto.
  - destruct Hin as [<-|Hin].
    + exfalso. destruct Hpos as [s' [Hs' Hlt]]. simpl in Hs'.
      injection Hs' as <-. contradiction.
    + apply IH; [exact Hk'|]. exists c. split; assumption.
Qed.

Lemma at_least_total (t : R) :
  forall l, kernel_only l ->
    exists r, at_least t l = Ok r /\ incl r l.
Proof.
  induction l as [|x l IH]; intros Hk.
  - exists []. split; [reflexivity | apply incl_nil_l].
  - destruct (kernel_only_cons _ _ Hk) as [[c [n [s ->]]] Hk'].
    destruct (IH Hk') as [r [Hr Hincl]].
    simpl. rewrite Hr. simpl.
    destruct (Rle_dec t s).
    + eexists. split; [reflexivity|].
      intros y [<-|Hy]; [left; reflexivity | right; apply Hincl; exact Hy].
    + exists r. split; [reflexivity|]. apply incl_tl. exact Hincl.
Qed.

(** On a fresh engine, of either centroid kind, [trim] divides by zero. *)
Lemma trim_fresh (k : Z) (d : vec -> vec -> result R) (f : cls) (p : R) :
  trim (__init__ k d f) p = Raise ZeroDivisionError.
Proof. reflexivity. Qed.

(** What [trim] does on kernel centroids. *)
Lemma trim_on_kernel_centroids (self : AddC) (p : R) :
  kernel_only (__iter__ self) ->
  ((forall c, In c (__iter__ self) -> ~ positive_size c) ->
   trim self p = Raise ZeroDivisionError) /\
  ((exists c, In c (__iter__ self) /\ positive_size c) ->
   exists l, trim self p = Ok l /\ incl l (__iter__ self)).
Proof.
  intros Hk. split.
  - intros Hn. unfold trim. rewrite positive_sizes_none by assumption.
    reflexivity.
  - intros Hp. unfold trim.
    destruct (positive_sizes_some _ Hk Hp) as [s0 [sub Hs]].
    rewrite Hs. simpl. apply at_least_total. exact Hk.
Qed.

(** C10 (amended): in an engine whose stored centroids are kernel centroids
    (in particular a fresh, empty engine), [trim] raises a division-by-zero
    error when no stored centroid has a size strictly greater than [0], and
    returns a sequence of stored centroids whenever at least one has. *)
Theorem trim_kernel_engine (self : AddC) (p : R) :
  kernel_only (__iter__ self) ->
  ((forall c, In c (__iter__ self) -> ~ positive_size c) ->
   trim self p = Raise ZeroDivisionError) /\
  ((exists c, In c (__iter__ self) /\ positive_size c) ->
   exists l, trim self p = Ok l /\ incl l (__iter__ self)).
Proof. apply trim_on_kernel_centroids. Qed.

Lemma trim_kernel_engine_witness :
  ((forall c, In c (__iter__ (two_points 2)) -> ~ positive_size c) ->
   trim (two_points 2) (1 / 100) = Raise ZeroDivisionError) /\
  ((exists c, In c (__iter__ (two_points 2)) /\ positive_size c) ->
   exists l, trim (two_points 2) (1 / 100) = Ok l
             /\ incl l (__iter__ (two_points 2))).
Proof.
  apply (trim_kernel_engine (two_points 2) (1 / 100)).
  intros c [<-|[<-|[]]]; reflexivity.
Defined.

(** The engine [two_points 2] does hold a centroid of positive size, and
    [trim] returns on it. *)
Lemma trim_two_points_returns :
  exists l, trim (two_points 2) (1 / 100) = Ok l.
Proof.
  destruct (trim_on_kernel_centroids (two_points 2) (1 / 100)) as [_ H].
  { intros c [<-|[<-|[]]]; reflexivity. }
  destruct H as [l [Hl _]]; [|exists l; exact Hl].
  exists moved0. split; [left; reflexivity|].
  exists (0 + g01). split; [reflexivity|].
  pose proof g01_bounds. lra.
Qed.

(** C10 (counterexample): an engine of plain centroids after the single
    point [(0,)].  No stored centroid has a size greater than [0] (a plain
    centroid has none), and [trim] raises [IndexError], not a
    division-by-zero error. *)
Lemma trim_plain_engine_IndexError :
  __add__ (__init__ 100 default_dist Centroid_cls) [0] = Ok plain_one_point /\
  (forall c, In c (__iter__ plain_one_point) -> ~ positive_size c) /\
  trim plain_one_point (1 / 100) = Raise IndexError /\
  trim plain_one_point (1 / 100) <> Raise ZeroDivisionError.
Proof.
  split; [apply first_point|]. split; [|split].
  - intros c [<-|[]] [s [Hs _]]. discriminate.
  - reflexivity.
  - discriminate.
Qed.

End Trim.

End BaseFacts.

(** ** Further properties of the kernels *)

Module KernelProperties.
Import Kernel KernelRest.

Lemma exp_le (x y : R) : x <= y -> exp x <= exp y.
Proof.
  intros [H|H]; [left; apply exp_increasing; exact H | subst; right; reflexivity].
Qed.

Lemma dot_comm : forall x y, dot x y = dot y x.
Proof.
  induction x as [|a x IH]; intros [|b y]; simpl; try reflexivity.
  rewrite IH. destruct (dot y x); simpl; [|reflexivity].
  f_equal. lra.
Qed.

Lemma sqeuclidean_cons (a b : R) (x y : vec) :
  sqeuclidean (a :: x) (b :: y)
  = (s <- sqeuclidean x y ;; Ok ((a - b) * (a - b) + s)).
Proof.
  unfold sqeuclidean, vsub. simpl.
  destruct (zip_with Rminus x y); reflexivity.
Qed.

Lemma sqeuclidean_sym : forall x y, sqeuclidean x y = sqeuclidean y x.
Proof.
  induction x as [|a x IH]; intros [|b y]; try reflexivity.
  rewrite !sqeuclidean_cons, IH.
  destruct (sqeuclidean y x); simpl; [|reflexivity].
  f_equal. lra.
Qed.

Lemma euclidean_sym (x y : vec) : euclidean x y = euclidean y x.
Proof. unfold euclidean. rewrite sqeuclidean_sym. reflexivity. Qed.

Lemma gaussian_sym (x y : vec) (sigma : R) :
  gaussian x y sigma = gaussian y x sigma.
Proof. unfold gaussian. rewrite sqeuclidean_sym. reflexivity. Qed.

Lemma gaussian_range (x y : vec) (sigma g : R) :
  gaussian x y sigma = Ok g -> 0 < g <= 1.
Proof.
  unfold gaussian. intros H.
  destruct (sqeuclidean x y) as [d|] eqn:E; [|discriminate].
  simpl in H. injection H as <-.
  assert (Hd : 0 <= d).
  { unfold sqeuclidean in E. destruct (vsub x y) as [v|]; [|discriminate].
    simpl in E. eapply dot_self_nonneg. exact E. }
  split; [apply exp_pos|].
  apply Rle_trans with (exp 0); [apply exp_le | rewrite exp_0; lra].
  assert (Hs : 0 <= sigma * (sigma * 1)) by nra.
  assert (0 <= d / 2 * (sigma * (sigma * 1))) by (apply Rmult_le_pos; lra).
  lra.
Qed.

(** X1: the Gaussian kernel is symmetric and, on vectors of equal length,
    returns a similarity in the interval from 0 (excluded) to 1 (included),
    whatever [sigma]. *)
Theorem gaussian_symmetric_bounded (x y : vec) (sigma : R) :
  List.length x = List.length y ->
  exists g, gaussian x y sigma = Ok g /\ gaussian y x sigma = Ok g
            /\ 0 < g <= 1.
Proof.
  intros H.
  destruct (KernelFacts.gaussian_total x y sigma H) as [g [Hg _]].
  exists g. split; [exact Hg|]. split.
  - rewrite gaussian_sym. exact Hg.
  - eapply gaussian_range. exact Hg.
Qed.

Lemma gaussian_symmetric_bounded_witness :
  exists g, gaussian [1; 2] [3; 5] 2 = Ok g /\ gaussian [3; 5] [1; 2] 2 = Ok g
            /\ 0 < g <= 1.
Proof. apply (gaussian_symmetric_bounded [1; 2] [3; 5] 2). reflexivity. Defined.

(** X2: the default distance of the engine, [kernel_dist(gaussian, **kw)],
    is symmetric and takes values in the interval from 0 (included) to 2
    (excluded) on vectors of equal length, and the distance from a vector to
    itself is 0. *)
Theorem gaussian_distance_properties (kw : kwargs) (x y : vec) :
  List.length x = List.length y ->
  (exists d, kernel_dist (Some gaussian_fn) kw x y = Ok d /\
             kernel_dist (Some gaussian_fn) kw y x = Ok d /\
             0 <= d < 2) /\
  kernel_dist (Some gaussian_fn) kw x x = Ok 0.
Proof.
  intros H. simpl. unfold gaussian_shortcut. split.
  - destruct (KernelFacts.gaussian_total x y (kw_get kw "sigma" 1) H)
      as [g [Hg _]].
    destruct (gaussian_range _ _ _ _ Hg) as [H0 H1].
    exists (2 - 2 * g). rewrite (gaussian_sym y x), Hg. simpl.
    repeat split; lra.
  - rewrite KernelFacts.gaussian_self. simpl. f_equal. lra.
Qed.

Lemma gaussian_distance_properties_witness :
  (exists d, kernel_dist (Some gaussian_fn) [] [1; 2; 3; 4; 5] [6; 5; 4; 3; 2]
             = Ok d /\
             kernel_dist (Some gaussian_fn) [] [6; 5; 4; 3; 2] [1; 2; 3; 4; 5]
             = Ok d /\
             0 <= d < 2) /\
  kernel_dist (Some gaussian_fn) [] [1; 2; 3; 4; 5] [1; 2; 3; 4; 5] = Ok 0.
Proof.
  apply (gaussian_distance_properties [] [1; 2; 3; 4; 5] [6; 5; 4; 3; 2]).
  reflexivity.
Defined.

(** The three inner products behind the linear-kernel distance. *)
Lemma dot_expand :
  forall x y, List.length x = List.length y ->
    exists xx xy yy d,
      dot x x = Ok xx /\ dot x y = Ok xy /\ dot y y = Ok yy /\
      sqeuclidean x y = Ok d /\ d = xx - 2 * xy + yy.
Proof.
  induction x as [|a x IH]; intros [|b y] H; simpl in H; try discriminate.
  - exists 0, 0, 0, 0. repeat split; try reflexivity. lra.
  - injection H as H. destruct (IH _ H) as [xx [xy [yy [d [H1 [H2 [H3 [H4 H5]]]]]]]].
    exists (a * a + xx), (a * b + xy), (b * b + yy), ((a - b) * (a - b) + d).
    simpl. rewrite H1, H2, H3, sqeuclidean_cons, H4. simpl.
    repeat split; try reflexivity. lra.
Qed.

(** X3: the distance induced by the linear kernel, the default of
    [kernel_dist], is the squared Euclidean distance, whatever the constant
    [c] passed as a keyword. *)
Theorem linear_distance_is_sqeuclidean (kw : kwargs) (x y : vec) :
  kw_only kw ["c"%string] = true ->
  List.length x = List.length y ->
  exists d, kernel_dist (Some linear_fn) kw x y = Ok d /\
            sqeuclidean x y = Ok d.
Proof.
  intros Hkw H.
  destruct (dot_expand x y H) as [xx [xy [yy [d [H1 [H2 [H3 [H4 H5]]]]]]]].
  exists d. split; [|exact H4].
  simpl. unfold induced_dist. simpl. rewrite Hkw. unfold linear.
  rewrite H1, H2, H3. simpl. f_equal. lra.
Qed.

Lemma linear_distance_is_sqeuclidean_witness :
  exists d, kernel_dist (Some linear_fn) [("c"%string, 3)] [1; 2] [4; 6] = Ok d
            /\ sqeuclidean [1; 2] [4; 6] = Ok d.
Proof.
  apply (linear_distance_is_sqeuclidean [("c"%string, 3)] [1; 2] [4; 6]);
    reflexivity.
Defined.

(** The general kernel-induced distance from [x] to itself is 0 for any
    kernel that returns on [(x, x)]. *)
Lemma induced_dist_self (kern : vec -> vec -> result R) (x : vec) (k : R) :
  kern x x = Ok k -> induced_dist kern x x = Ok 0.
Proof.
  intros H. unfold induced_dist. rewrite H. simpl. f_equal. lra.
Qed.

Lemma laplacian_self (x : vec) (sigma : R) : laplacian x x sigma = Ok 1.
Proof.
  unfold laplacian, euclidean. rewrite sqeuclidean_self. simpl.
  rewrite sqrt_0. f_equal. unfold Rdiv. rewrite Rmult_0_l, Ropp_0.
  apply exp_0.
Qed.

Lemma laplacian_range (x y : vec) (sigma k : R) :
  0 < sigma -> laplacian x y sigma = Ok k -> 0 < k <= 1.
Proof.
  intros Hs H. unfold laplacian, euclidean in H.
  destruct (sqeuclidean x y) as [d|]; [|discriminate]. simpl in H.
  injection H as <-. split; [apply exp_pos|].
  apply Rle_trans with (exp 0); [apply exp_le | rewrite exp_0; lra].
  pose proof (sqrt_pos d).
  assert (0 <= sqrt d / sigma).
  { apply Rmult_le_pos; [assumption|]. left. apply Rinv_0_lt_compat. exact Hs. }
  lra.
Qed.

(** X4: for the Laplacian kernel with [sigma > 0], the general three-term
    branch of [kernel_dist] returns, on vectors of equal length, a symmetric
    distance [2 - 2 K(x, y)] in the interval from 0 (included) to 2
    (excluded), and the distance from a vector to itself is 0. *)
Theorem laplacian_distance_properties (sigma : R) (x y : vec) :
  0 < sigma ->
  List.length x = List.length y ->
  (exists k,
     laplacian x y sigma = Ok k /\
     kernel_dist (Some laplacian_fn) [("sigma"%string, sigma)] x y
       = Ok (1 - 2 * k + 1) /\
     kernel_dist (Some laplacian_fn) [("sigma"%string, sigma)] y x
       = Ok (1 - 2 * k + 1) /\
     0 <= 1 - 2 * k + 1 < 2) /\
  kernel_dist (Some laplacian_fn) [("sigma"%string, sigma)] x x = Ok 0.
Proof.
  intros Hs H.
  destruct (euclidean_total x y H) as [d [Hd _]].
  assert (Hk : laplacian x y sigma = Ok (exp (- (d / sigma)))).
  { unfold laplacian. rewrite Hd. reflexivity. }
  destruct (laplacian_range _ _ _ _ Hs Hk) as [H0 H1].
  split.
  - exists (exp (- (d / sigma))). split; [exact Hk|].
    simpl. unfold induced_dist. simpl.
    rewrite !laplacian_self. simpl.
    assert (Hk' : laplacian y x sigma = Ok (exp (- (d / sigma)))).
    { unfold laplacian. rewrite euclidean_sym, Hd. reflexivity. }
    rewrite Hk, Hk'. simpl. repeat split; lra.
  - simpl. apply (induced_dist_self _ x 1). simpl. apply laplacian_self.
Qed.

Lemma laplacian_distance_properties_witness :
  (exists k,
     laplacian [1; 2] [4; 6] 2 = Ok k /\
     kernel_dist (Some laplacian_fn) [("sigma"%string, 2)] [1; 2] [4; 6]
       = Ok (1 - 2 * k + 1) /\
     kernel_dist (Some laplacian_fn) [("sigma"%string, 2)] [4; 6] [1; 2]
       = Ok (1 - 2 * k + 1) /\
     0 <= 1 - 2 * k + 1 < 2) /\
  kernel_dist (Some laplacian_fn) [("sigma"%string, 2)] [1; 2] [1; 2] = Ok 0.
Proof.
  apply (laplacian_distance_properties 2 [1; 2] [4; 6]); [lra | reflexivity].
Defined.

(** *** multiquadric and its inverse *)

Lemma multiquadric_eq (x y : vec) (c d : R) :
  sqeuclidean x y = Ok d -> 0 <= d ->
  multiquadric x y c = Ok (sqrt (d + c ^ 2)).
Proof.
  intros Hd Hpos. unfold multiquadric. rewrite Hd. simpl.
  apply KernelFacts.math_sqrt_in. pose proof (pow2_ge_0 c). lra.
Qed.

Lemma multiquadric_self (x : vec) (c : R) : multiquadric x x c = Ok (Rabs c).
Proof.
  rewrite (multiquadric_eq x x c 0) by (try apply sqeuclidean_self; lra).
  f_equal. replace (0 + c ^ 2) with (Rsqr c) by (unfold Rsqr; simpl; lra).
  apply sqrt_Rsqr_abs.
Qed.

(** X5: on vectors of equal length [multiquadric] never raises: the
    argument of [math.sqrt] is not negative.  It returns the non-negative
    root of [||x-y||^2 + c^2], and [|c|] for [x = y]. *)
Theorem multiquadric_returns (x y : vec) (c : R) :
  List.length x = List.length y ->
  (exists d m, sqeuclidean x y = Ok d /\ multiquadric x y c = Ok m /\
               0 <= m /\ m * m = d + c ^ 2) /\
  multiquadric x x c = Ok (Rabs c).
Proof.
  intros H. split; [|apply multiquadric_self].
  destruct (sqeuclidean_total x y H) as [d [Hd Hpos]].
  exists d, (sqrt (d + c ^ 2)). split; [exact Hd|].
  split; [apply multiquadric_eq; assumption|].
  split; [apply sqrt_pos|].
  apply sqrt_sqrt. pose proof (pow2_ge_0 c). lra.
Qed.

Lemma multiquadric_returns_witness :
  (exists d m, sqeuclidean [0; 0] [3; 4] = Ok d /\
               multiquadric [0; 0] [3; 4] 2 = Ok m /\
               0 <= m /\ m * m = d + 2 ^ 2) /\
  multiquadric [0; 0] [0; 0] 2 = Ok (Rabs 2).
Proof. apply (multiquadric_returns [0; 0] [3; 4] 2). reflexivity. Defined.

Lemma inverse_multiquadratic_self_default (x : vec) :
  inverse_multiquadratic x x 0 = Raise ZeroDivisionError.
Proof.
  unfold inverse_multiquadratic. rewrite multiquadric_self. simpl.
  destruct (Req_dec_T (Rabs 0) 0) as [_|n]; [reflexivity|].
  exfalso. apply n. apply Rabs_R0.
Qed.

(** X6: with the default [c = 0], [inverse_multiquadratic(x, x)] raises
    [ZeroDivisionError], and so does every call of the distance
    [kernel_dist(inverse_multiquadratic)], which starts by evaluating the
    kernel on [(x, x)]. *)
Theorem inverse_multiquadratic_distance_raises (x y : vec) :
  inverse_multiquadratic x x 0 = Raise ZeroDivisionError /\
  kernel_dist (Some inverse_multiquadratic_fn) [] x y
    = Raise ZeroDivisionError.
Proof.
  split; [apply inverse_multiquadratic_self_default|].
  simpl. unfold induced_dist. simpl.
  rewrite inverse_multiquadratic_self_default. reflexivity.
Qed.

(** X7: with [c <> 0], [inverse_multiquadratic] returns on vectors of equal
    length, and its value [1 / sqrt(||x-y||^2 + c^2)] is strictly positive
    and at most [1 / |c|]. *)
Theorem inverse_multiquadratic_returns (x y : vec) (c : R) :
  c <> 0 ->
  List.length x = List.length y ->
  exists k, inverse_multiquadratic x y c = Ok k /\ 0 < k <= 1 / Rabs c.
Proof.
  intros Hc H.
  destruct (sqeuclidean_total x y H) as [d [Hd Hpos]].
  assert (Hc2 : 0 < c ^ 2) by (rewrite <- Rsqr_pow2; apply Rlt_0_sqr; exact Hc).
  assert (Hm : 0 < sqrt (d + c ^ 2)) by (apply sqrt_lt_R0; lra).
  assert (Habs : 0 < Rabs c) by (apply Rabs_pos_lt; exact Hc).
  assert (Hle : Rabs c <= sqrt (d + c ^ 2)).
  { rewrite <- sqrt_Rsqr_abs. apply sqrt_le_1_alt. unfold Rsqr. simpl. lra. }
  exists (1 / sqrt (d + c ^ 2)).
  unfold inverse_multiquadratic.
  rewrite (multiquadric_eq x y c d) by assumption. cbn [bind].
  destruct (Req_dec_T (sqrt (d + c ^ 2)) 0) as [e|_]; [lra|].
  split; [reflexivity|]. split.
  - apply Rdiv_lt_0_compat; lra.
  - unfold Rdiv. rewrite !Rmult_1_l. apply Rinv_le_contravar; assumption.
Qed.

Lemma inverse_multiquadratic_returns_witness :
  exists k, inverse_multiquadratic [0; 0] [3; 4] 2 = Ok k
            /\ 0 < k <= 1 / Rabs 2.
Proof.
  apply (inverse_multiquadratic_returns [0; 0] [3; 4] 2); [lra | reflexivity].
Defined.

(** *** rational_quadratic *)

(** X8: [rational_quadratic] with the default [c = 0] returns 0 for every
    pair of vectors at non-zero distance; with [c > 0] it returns a value in
    the interval from 0 (excluded) to 1 (included), and 1 for [x = y]. *)
Theorem rational_quadratic_values (x y : vec) (d : R) :
  sqeuclidean x y = Ok d ->
  (d <> 0 -> rational_quadratic x y 0 = Ok 0) /\
  (forall c, 0 < c ->
     (exists k, rational_quadratic x y c = Ok k /\ 0 < k <= 1) /\
     rational_quadratic x x c = Ok 1).
Proof.
  intros Hd.
  assert (Hpos : 0 <= d).
  { unfold sqeuclidean in Hd. destruct (vsub x y) as [v|]; [|discriminate].
    simpl in Hd. eapply dot_self_nonneg. exact Hd. }
  split.
  - intros Hnz. unfold rational_quadratic. rewrite Hd. simpl.
    f_equal. field. exact Hnz.
  - intros c Hc. split.
    + exists (1 - d / (d + c)). unfold rational_quadratic. rewrite Hd. simpl.
      split; [reflexivity|].
      assert (E : 1 - d / (d + c) = c / (d + c)) by (field; lra).
      rewrite E. split.
      * apply Rdiv_lt_0_compat; lra.
      * apply Rmult_le_reg_r with (d + c); [lra|].
        replace (c / (d + c) * (d + c)) with c by (field; lra). lra.
    + unfold rational_quadratic. rewrite sqeuclidean_self. simpl.
      f_equal. field. lra.
Qed.

Lemma rational_quadratic_values_witness :
  (25 <> 0 -> rational_quadratic [0; 0] [3; 4] 0 = Ok 0) /\
  (forall c, 0 < c ->
     (exists k, rational_quadratic [0; 0] [3; 4] c = Ok k /\ 0 < k <= 1) /\
     rational_quadratic [0; 0] [0; 0] c = Ok 1).
Proof.
  apply (rational_quadratic_values [0; 0] [3; 4] 25).
  unfold sqeuclidean. simpl. f_equal. lra.
Defined.

(** *** sigmoid *)

Lemma tanh_bounds (t : R) : -1 < tanh t < 1.
Proof.
  unfold tanh, sinh, cosh.
  pose proof (exp_pos t) as Ha. pose proof (exp_pos (- t)) as Hb.
  set (a := exp t) in *. set (b := exp (- t)) in *.
  assert (E : (a - b) / 2 / ((a + b) / 2) * (a + b) = a - b) by (field; lra).
  split.
  - apply Rmult_lt_reg_r with (a + b); [lra|]. rewrite E. lra.
  - apply Rmult_lt_reg_r with (a + b); [lra|]. rewrite E. lra.
Qed.

(** X9: with [alpha] left to its default, [sigmoid] on an empty first vector
    raises [ZeroDivisionError] (from [1 / len(x)]); on non-empty vectors of
    equal length it returns, is symmetric, and its value lies strictly
    between -1 and 1. *)
Theorem sigmoid_default_alpha (x y : vec) (c : R) :
  List.length x = List.length y ->
  x <> [] ->
  sigmoid [] y None c = Raise ZeroDivisionError /\
  exists k, sigmoid x y None c = Ok k /\ sigmoid y x None c = Ok k
            /\ -1 < k < 1.
Proof.
  intros H Hx. split; [reflexivity|].
  destruct (dot_total x y H) as [d Hd].
  exists (tanh (1 / INR (List.length x) * d + c)).
  unfold sigmoid. rewrite <- H, (dot_comm y x), Hd.
  destruct x as [|a x]; [contradiction|]. cbn [List.length bind].
  repeat split; apply tanh_bounds.
Qed.

Lemma sigmoid_default_alpha_witness :
  sigmoid [] [3; 4] None (- E) = Raise ZeroDivisionError /\
  exists k, sigmoid [1; 2] [3; 4] None (- E) = Ok k
            /\ sigmoid [3; 4] [1; 2] None (- E) = Ok k
            /\ -1 < k < 1.
Proof.
  apply (sigmoid_default_alpha [1; 2] [3; 4] (- E));
    [reflexivity | discriminate].
Defined.

(** *** Keyword arguments of kernel_dist *)

(** X10: [kernel_dist(circular)] without a [sigma] keyword raises
    [TypeError] at every call ([sigma] has no default), and a keyword the
    kernel does not accept, such as [c] for [laplacian], makes every call of
    the general branch raise [TypeError]; the Gaussian branch reads [sigma]
    with [kw.get] and ignores such a keyword. *)
Theorem kernel_dist_keywords (x y : vec) (c : R) :
  kernel_dist (Some circular_fn) [] x y = Raise TypeError /\
  kernel_dist (Some laplacian_fn) [("c"%string, c)] x y = Raise TypeError /\
  kernel_dist (Some gaussian_fn) [("c"%string, c)] x y
    = kernel_dist (Some gaussian_fn) [] x y.
Proof. repeat split. Qed.

(** *** circular *)

(** X11: for [sigma > 0] and vectors of equal length, [circular] raises a
    math domain error exactly when [||x - y|| > sigma]; within that range
    it returns, and it returns 1 for [x = y]. *)
Theorem circular_domain (x y : vec) (sigma : R) :
  0 < sigma ->
  List.length x = List.length y ->
  exists d, euclidean x y = Ok d /\
    (sigma < d <-> circular x y sigma = Raise MathDomainError) /\
    (d <= sigma <-> exists k, circular x y sigma = Ok k) /\
    circular x x sigma = Ok 1.
Proof.
  intros Hs H.
  destruct (euclidean_total x y H) as [d [Hd Hpos]].
  exists d. split; [exact Hd|].
  assert (Hr0 : 0 <= d / sigma).
  { apply Rmult_le_pos; [exact Hpos|]. left. apply Rinv_0_lt_compat. exact Hs. }
  assert (Hin : d <= sigma -> d / sigma <= 1).
  { intros Hle. apply Rmult_le_reg_r with sigma; [exact Hs|].
    replace (d / sigma * sigma) with d by (field; lra). lra. }
  assert (Hout : sigma < d -> 1 < d / sigma).
  { intros Hlt. apply Rmult_lt_reg_r with sigma; [exact Hs|].
    replace (d / sigma * sigma) with d by (field; lra). lra. }
  split; [|split].
  - split.
    + intros Hlt. apply (KernelFacts.circular_outside x y sigma d Hd).
      apply Hout. exact Hlt.
    + intros Hraise. destruct (Rle_lt_dec d sigma) as [Hle|Hlt]; [|exact Hlt].
      rewrite (KernelFacts.circular_closed_form x y sigma d Hd) in Hraise
        by (split; [exact Hr0 | apply Hin; exact Hle]).
      discriminate.
  - split.
    + intros Hle. eexists.
      apply (KernelFacts.circular_closed_form x y sigma d Hd).
      split; [exact Hr0 | apply Hin; exact Hle].
    + intros [k Hk]. destruct (Rle_lt_dec d sigma) as [Hle|Hlt]; [exact Hle|].
      rewrite (KernelFacts.circular_outside x y sigma d Hd) in Hk
        by (apply Hout; exact Hlt).
      discriminate.
  - assert (H0 : euclidean x x = Ok 0).
    { unfold euclidean. rewrite sqeuclidean_self. simpl. rewrite sqrt_0.
      reflexivity. }
    rewrite (KernelFacts.circular_closed_form x x sigma 0 H0)
      by (unfold Rdiv; rewrite Rmult_0_l; lra).
    f_equal. replace (0 / sigma) with 0 by (unfold Rdiv; ring).
    rewrite Ropp_0, acos_0. field. apply PI_neq0.
Qed.

Lemma circular_domain_witness :
  exists d, euclidean [0; 0] [3; 4] = Ok d /\
    (2 < d <-> circular [0; 0] [3; 4] 2 = Raise MathDomainError) /\
    (d <= 2 <-> exists k, circular [0; 0] [3; 4] 2 = Ok k) /\
    circular [0; 0] [0; 0] 2 = Ok 1.
Proof.
  apply (circular_domain [0; 0] [3; 4] 2); [lra | reflexivity].
Defined.

End KernelProperties.

(** ** Further properties of the centroids *)

Module CentroidProperties.
Import Centroids.

Lemma zip_with_comm (f : R -> R -> R) :
  (forall a b, f a b = f b a) ->
  forall x y, zip_with f x y = zip_with f y x.
Proof.
  intros Hf. induction x as [|a x IH]; intros [|b y]; simpl; try reflexivity.
  rewrite IH, (Hf a b). reflexivity.
Qed.

Lemma zip_with_left_unit (u : R -> R) :
  forall x y, List.length x = List.length y ->
    (forall a b, a + u b = a) ->
    vadd x (map u y) = Ok x.
Proof.
  unfold vadd. induction x as [|a x IH]; intros [|b y] H Hu; simpl in H;
    try discriminate; simpl; [reflexivity|].
  injection H as H. rewrite (IH _ H Hu). simpl. rewrite Hu. reflexivity.
Qed.

(** X12: a plain centroid with a non-negative count absorbing any operand
    of the same dimension returns the same center with the count
    incremented: the plain update never moves the center. *)
Theorem plain_absorb_keeps_center (c : vec) (n : Z) (other : centroid) :
  (0 <= n)%Z ->
  List.length c = List.length (center other) ->
  add (Centroid c n) other = Ok (Centroid c (n + 1)).
Proof. intros _ H. apply CentroidFacts.Centroid__add__eq. exact H. Qed.

Lemma plain_absorb_keeps_center_witness :
  add (Centroid [1; 2] 3) (KernelCentroid [7; 9] 0 0)
  = Ok (Centroid [1; 2] (3 + 1)).
Proof.
  apply (plain_absorb_keeps_center [1; 2] 3 (KernelCentroid [7; 9] 0 0));
    [lia | reflexivity].
Defined.

Lemma plain_merge_never_returns_aux (self other : centroid) :
  exists e, Centroid_merge self other = Raise e.
Proof.
  unfold Centroid_merge.
  destruct (negb (isinstance other (type_of self))); [eauto|].
  destruct (vadd _ _); simpl; eauto.
Qed.

(** X13: the plain [merge] never returns a centroid: whatever the two
    operands, it raises (a type-mismatch error is impossible since every
    centroid is an instance of [Centroid]; the quotient's unbound names
    raise [NameError] unless the centers already differ in dimension). *)
Theorem plain_merge_never_returns (self other : centroid) :
  Centroid_merge self other = Raise NameError \/
  Centroid_merge self other = Raise DimensionMismatch \/
  (type_of self = KernelCentroid_cls /\ type_of other = Centroid_cls /\
   Centroid_merge self other = Raise TypeError).
Proof.
  unfold Centroid_merge.
  destruct (isinstance other (type_of self)) eqn:Hi; simpl.
  - destruct (vadd _ _) as [xy|e] eqn:E; simpl.
    + left. reflexivity.
    + right. left. unfold vadd in E.
      destruct (Nat.eq_dec
                  (List.length (vscale (center self) (IZR (count self))))
                  (List.length (vscale (center other) (IZR (count other)))))
        as [Hl|Hl].
      * destruct (zip_with_total Rplus _ _ Hl) as [r Hr]. congruence.
      * rewrite (zip_with_mismatch Rplus _ _ Hl) in E. congruence.
  - right. right. destruct self, other; simpl in Hi; try discriminate.
    repeat split.
Qed.

(** X14: the kernel merge is commutative: [a.merge(b)] and [b.merge(a)]
    are the same result for every two kernel centroids. *)
Theorem kernel_merge_comm (ca : vec) (na : Z) (sa : R)
  (cb : vec) (nb : Z) (sb : R) :
  merge (KernelCentroid ca na sa) (KernelCentroid cb nb sb)
  = merge (KernelCentroid cb nb sb) (KernelCentroid ca na sa).
Proof.
  unfold merge, KernelCentroid_merge. simpl. unfold vadd.
  rewrite (zip_with_comm Rplus Rplus_comm (vscale cb sb) (vscale ca sa)).
  rewrite (Rplus_comm sb sa), (Z.add_comm nb na). reflexivity.
Qed.

Lemma vdiv_vscale (c : vec) (s : R) :
  s <> 0 -> vdiv (vscale c s) s = c.
Proof.
  intros Hs. unfold vdiv, vscale. rewrite map_map.
  rewrite <- (map_id c) at 2. apply map_ext. intros a. field. exact Hs.
Qed.

(** X15: a kernel centroid of size 0 (a singleton that never absorbed a
    point) has no weight in a merge: merged into a centroid [a] of non-zero
    size and the same dimension, it leaves the center and the size of [a]
    unchanged and only adds its count. *)
Theorem kernel_merge_zero_size (ca : vec) (na : Z) (sa : R)
  (cb : vec) (nb : Z) :
  sa <> 0 ->
  List.length ca = List.length cb ->
  merge (KernelCentroid ca na sa) (KernelCentroid cb nb 0)
  = Ok (KernelCentroid ca (na + nb) sa).
Proof.
  intros Hs H. unfold merge, KernelCentroid_merge. simpl.
  assert (E : vadd (vscale ca sa) (vscale cb 0) = Ok (vscale ca sa)).
  { unfold vscale at 2. apply zip_with_left_unit.
    - rewrite vscale_length. exact H.
    - intros a b. lra. }
  rewrite E. simpl. rewrite Rplus_0_r, vdiv_vscale by exact Hs.
  reflexivity.
Qed.

Lemma kernel_merge_zero_size_witness :
  merge (KernelCentroid [1; 2] 4 3) (KernelCentroid [10; 20] 0 0)
  = Ok (KernelCentroid [1; 2] (4 + 0) 3).
Proof.
  apply (kernel_merge_zero_size [1; 2] 4 3 [10; 20] 0); [lra | reflexivity].
Defined.

(** X16: a kernel centroid absorbing an operand of the same dimension
    returns a kernel centroid of that dimension whose count is one more and
    whose size has grown by the Gaussian similarity, strictly positive and
    at most 1. *)
Theorem kernel_absorb_growth (c : vec) (n : Z) (s : R) (other : centroid) :
  List.length c = List.length (center other) ->
  exists c' s',
    add (KernelCentroid c n s) other = Ok (KernelCentroid c' (n + 1) s') /\
    List.length c' = List.length c /\ s < s' <= s + 1.
Proof.
  intros H.
  destruct (CentroidFacts.add_kernel_total c n s other H)
    as [c' [k [Ha [Hk [Hpos Hl]]]]].
  exists c', (s + k). split; [exact Ha|]. split; [exact Hl|].
  destruct (KernelProperties.gaussian_range _ _ _ _ Hk). lra.
Qed.

Lemma kernel_absorb_growth_witness :
  exists c' s',
    add (KernelCentroid [1; 2] 0 0) (KernelCentroid [3; 5] 0 0)
      = Ok (KernelCentroid c' (0 + 1) s') /\
    List.length c' = List.length [1; 2] /\ 0 < s' <= 0 + 1.
Proof.
  apply (kernel_absorb_growth [1; 2] 0 0 (KernelCentroid [3; 5] 0 0)).
  reflexivity.
Defined.

(** X17: a kernel centroid of non-negative size absorbing a point equal to
    its own center stays where it is: the center is unchanged, the size
    grows by exactly 1 and the count by 1. *)
Theorem kernel_absorb_own_center (c : vec) (n : Z) (s : R)
  (other : centroid) :
  0 <= s ->
  center other = c ->
  add (KernelCentroid c n s) other = Ok (KernelCentroid c (n + 1) (s + 1)).
Proof.
  intros _ Hc. unfold add, __add__. simpl.
  unfold KernelCentroid__add__, KernelCentroid__add__with, kernel. simpl.
  rewrite Hc, KernelFacts.gaussian_self. simpl.
  rewrite vsub_self. simpl.
  rewrite CentroidFacts.unmoved by reflexivity. reflexivity.
Qed.

Lemma kernel_absorb_own_center_witness :
  add (KernelCentroid [1; 2] 4 3) (KernelCentroid [1; 2] 0 0)
  = Ok (KernelCentroid [1; 2] (4 + 1) (3 + 1)).
Proof.
  apply (kernel_absorb_own_center [1; 2] 4 3 (KernelCentroid [1; 2] 0 0));
    [lra | reflexivity].
Defined.

End CentroidProperties.

(** ** Further properties of the engine *)

Module BaseProperties.
Import Centroids Base FastPairFacts BaseFacts Predicates Examples.

(** *** What the index operations keep *)

Lemma replace_first_all (P : centroid -> Prop) (old new : centroid) :
  forall l l', (forall c, In c l -> P c) -> P new ->
    FastPair.replace_first old new l = Some l' ->
    forall c, In c l' -> P c.
Proof.
  induction l as [|x l IH]; intros l' Hl Hn H c Hc; simpl in H;
    [discriminate|].
  destruct (__eq__ x old).
  - inversion H; subst. destruct Hc as [<-|Hc]; [exact Hn|].
    apply Hl. right. exact Hc.
  - destruct (FastPair.replace_first old new l) as [r|] eqn:E; simpl in H;
      [|discriminate].
    inversion H; subst. destruct Hc as [<-|Hc].
    + apply Hl. left. reflexivity.
    + apply (IH r); auto. intros c' Hc'. apply Hl. right. exact Hc'.
Qed.

Lemma remove_first_all (P : centroid -> Prop) (b : centroid) :
  forall l l', (forall c, In c l -> P c) ->
    FastPair.remove_first b l = Some l' ->
    forall c, In c l' -> P c.
Proof.
  induction l as [|x l IH]; intros l' Hl H c Hc; simpl in H; [discriminate|].
  destruct (__eq__ x b).
  - inversion H; subst. apply Hl. right. exact Hc.
  - destruct (FastPair.remove_first b l) as [r|] eqn:E; simpl in H;
      [|discriminate].
    inversion H; subst. destruct Hc as [<-|Hc].
    + apply Hl. left. reflexivity.
    + apply (IH r); auto. intros c' Hc'. apply Hl. right. exact Hc'.
Qed.

Lemma min_from_in {A : Type} :
  forall (l : list (R * A)) (best : R * A),
    In (FastPair.min_from best l) (best :: l).
Proof.
  induction l as [|x l IH]; intros best; simpl; [left; reflexivity|].
  destruct (Rlt_dec (fst x) (fst best)).
  - right. apply IH.
  - destruct (IH best) as [H|H]; [left; exact H | right; right; exact H].
Qed.

Lemma min_by_key_in {A : Type} (l : list (R * A)) (m : R * A) :
  FastPair.min_by_key l = Ok m -> In m l.
Proof.
  destruct l as [|x l]; simpl; intros H; [discriminate|].
  inversion H; subst. apply min_from_in.
Qed.

Lemma sdist_list_in (d : vec -> vec -> result R) (q : centroid) :
  forall l ds, FastPair.sdist_list d q l = Ok ds ->
    forall rb, In rb ds -> In (snd rb) l.
Proof.
  induction l as [|b l IH]; intros ds H rb Hrb; simpl in H.
  - inversion H; subst. destruct Hrb.
  - destruct (d (center q) (center b)) as [r|]; [|discriminate]. simpl in H.
    destruct (FastPair.sdist_list d q l) as [rest|] eqn:E; [|discriminate].
    simpl in H. inversion H; subst.
    destruct Hrb as [<-|Hrb]; [left; reflexivity|].
    right. apply (IH rest); auto.
Qed.

Lemma pair_dists_in (d : vec -> vec -> result R) :
  forall l ds, FastPair.pair_dists d l = Ok ds ->
    forall x, In x ds -> In (fst (snd x)) l /\ In (snd (snd x)) l.
Proof.
  induction l as [|a l IH]; intros ds H x Hx; simpl in H.
  - inversion H; subst. destruct Hx.
  - destruct (FastPair.sdist_list d a l) as [row|] eqn:E1; [|discriminate].
    simpl in H.
    destruct (FastPair.pair_dists d l) as [rest|] eqn:E2; [|discriminate].
    simpl in H. inversion H; subst.
    apply in_app_or in Hx. destruct Hx as [Hx|Hx].
    + apply in_map_iff in Hx. destruct Hx as [rb [<- Hrb]]. simpl.
      split; [left; reflexivity|]. right.
      apply (sdist_list_in d a l row E1 rb Hrb).
    + destruct (IH rest eq_refl x Hx) as [H1 H2]. split; right; assumption.
Qed.

Lemma closest_pair_in (fp : FastPair.t) (cp : R * (centroid * centroid)) :
  FastPair.closest_pair fp = Ok cp ->
  In (fst (snd cp)) (FastPair.points fp) /\
  In (snd (snd cp)) (FastPair.points fp).
Proof.
  unfold FastPair.closest_pair. intros H.
  destruct (FastPair.__len__ fp <? 2)%nat; [discriminate|].
  destruct (FastPair.pair_dists (FastPair.dist fp) (FastPair.points fp))
    as [ds|] eqn:E; [|discriminate].
  simpl in H. apply (pair_dists_in _ _ _ E). apply min_by_key_in. exact H.
Qed.

(** *** The class of the stored centroids *)

Lemma add_type (a c r : centroid) : add a c = Ok r -> type_of r = type_of a.
Proof.
  unfold add, Centroids.__add__. destruct a as [x n|x n s]; cbn [type_of].
  - unfold Centroid__add__. cbn [center count type_of].
    rewrite vsub_self. cbn [bind].
    destruct (vadd x _); cbn [bind new]; [|discriminate].
    intros H. inversion H. reflexivity.
  - unfold KernelCentroid__add__, KernelCentroid__add__with.
    cbn [center count type_of size bind].
    destruct (kernel x (center c)); cbn [bind]; [|discriminate].
    destruct (vsub (center c) x); cbn [bind]; [|discriminate].
    destruct (vadd x _); cbn [bind new]; [|discriminate].
    intros H. inversion H. reflexivity.
Qed.

Lemma merge_type (a b r : centroid) :
  merge a b = Ok r -> type_of r = type_of a.
Proof.
  unfold merge. destruct a as [x n|x n s]; cbn [type_of].
  - intros H.
    destruct (CentroidProperties.plain_merge_never_returns_aux (Centroid x n) b)
      as [e He]. congruence.
  - unfold KernelCentroid_merge. cbn [center count type_of size bind].
    destruct (isinstance b KernelCentroid_cls); cbn [negb]; [|discriminate].
    destruct (size b); cbn [bind]; [|discriminate].
    destruct (vadd (vscale x s) _); cbn [bind new]; [|discriminate].
    intros H. inversion H. reflexivity.
Qed.

Lemma factory_type (f : cls) (p : vec) : type_of (factory f p) = f.
Proof. destruct f; reflexivity. Qed.

Lemma _step_one_class (f : cls) (self s1 : AddC) (c : centroid) :
  all_of_class f (__iter__ self) ->
  _step_one self c = Ok s1 ->
  all_of_class f (__iter__ s1).
Proof.
  unfold _step_one, __iter__, FastPair.__iter__. intros Hall H.
  destruct (0 <? FastPair.__len__ (fastpair self))%nat;
    [|inversion H; subst; exact Hall].
  destruct (FastPair.sdist (fastpair self) c) as [ds|] eqn:Eds;
    [|discriminate]. cbn [bind] in H.
  destruct (FastPair.min_by_key ds) as [m|] eqn:Em; [|discriminate].
  cbn [bind] in H.
  destruct (add (snd m) c) as [moved|] eqn:Ea; [|discriminate].
  cbn [bind] in H.
  unfold FastPair._update_point in H.
  destruct (FastPair.replace_first (snd m) moved
              (FastPair.points (fastpair self))) as [l|] eqn:Er;
    [|discriminate].
  inversion H; subst. simpl. unfold all_of_class in *.
  apply (replace_first_all (fun c => type_of c = f) (snd m) moved _ l Hall);
    [|exact Er].
  rewrite (add_type _ _ _ Ea). apply Hall.
  apply (sdist_list_in _ _ _ _ Eds). apply min_by_key_in. exact Em.
Qed.

Lemma _step_two_class (f : cls) (self s2 : AddC) :
  all_of_class f (__iter__ self) ->
  _step_two self = Ok s2 ->
  all_of_class f (__iter__ s2).
Proof.
  unfold _step_two, __iter__, FastPair.__iter__. intros Hall H.
  destruct ((kmax self <=? Z.of_nat (FastPair.__len__ (fastpair self)))%Z
            && (1 <? FastPair.__len__ (fastpair self))%nat);
    [|inversion H; subst; exact Hall].
  destruct (FastPair.closest_pair (fastpair self)) as [cp|] eqn:Ecp;
    [|discriminate]. cbn [bind] in H.
  destruct (closest_pair_in _ _ Ecp) as [Ha _].
  unfold FastPair.remove in H.
  destruct (FastPair.remove_first (snd (snd cp))
              (FastPair.points (fastpair self))) as [l1|] eqn:Er;
    [|discriminate]. cbn [bind] in H.
  destruct (merge (fst (snd cp)) (snd (snd cp))) as [merged|] eqn:Em;
    [|discriminate]. cbn [bind] in H.
  unfold FastPair._update_point in H. simpl in H.
  destruct (FastPair.replace_first (fst (snd cp)) merged l1) as [l2|] eqn:Eu;
    [|discriminate].
  inversion H; subst. simpl. unfold all_of_class in *.
  apply (replace_first_all (fun c => type_of c = f) (fst (snd cp)) merged
           l1 l2); [| |exact Eu].
  - apply (remove_first_all (fun c => type_of c = f) _ _ _ Hall Er).
  - rewrite (merge_type _ _ _ Em). apply Hall. exact Ha.
Qed.

Lemma _step_three_class (f : cls) (self s3 : AddC) (c : centroid) :
  all_of_class f (__iter__ self) -> type_of c = f ->
  _step_three self c = Ok s3 ->
  all_of_class f (__iter__ s3).
Proof.
  unfold _step_three, __iter__, FastPair.__iter__, FastPair.insert.
  intros Hall Hc H.
  destruct (FastPair.__contains__ (fastpair self) c); [discriminate|].
  inversion H; subst. simpl. intros x Hx.
  apply in_app_or in Hx. destruct Hx as [Hx|[<-|[]]].
  - apply Hall. exact Hx.
  - reflexivity.
Qed.

Lemma __add__class (self s' : AddC) (p : vec) :
  all_of_class (centroid_factory self) (__iter__ self) ->
  __add__ self p = Ok s' ->
  all_of_class (centroid_factory s') (__iter__ s').
Proof.
  intros Hall H.
  destruct (__add__len _ _ _ H) as [_ [_ [Hf _]]]. rewrite Hf.
  unfold __add__ in H.
  destruct (_step_one self _) as [s1|] eqn:E1; [|discriminate].
  cbn [bind] in H.
  destruct (_step_two s1) as [s2|] eqn:E2; [|discriminate]. cbn [bind] in H.
  destruct (_step_three s2 _) as [s3|] eqn:E3; [|discriminate].
  cbn [bind] in H. inversion H; subst.
  change (all_of_class (centroid_factory self) (__iter__ s3)).
  apply (_step_three_class (centroid_factory self) s2 s3
           (factory (centroid_factory self) p));
    [| apply factory_type | exact E3].
  apply (_step_two_class (centroid_factory self) s1 s2); [|exact E2].
  apply (_step_one_class (centroid_factory self) self s1
           (factory (centroid_factory self) p) Hall E1).
Qed.

Lemma batch_class :
  forall (points : list vec) (self s' : AddC),
    all_of_class (centroid_factory self) (__iter__ self) ->
    batch self points = Ok s' ->
    centroid_factory s' = centroid_factory self /\
    all_of_class (centroid_factory self) (__iter__ s').
Proof.
  induction points as [|p rest IH]; intros self s' Hall H; simpl in H.
  - inversion H; subst. split; [reflexivity | exact Hall].
  - destruct (__add__ self p) as [s1|] eqn:E; [|discriminate].
    cbn [bind] in H.
    pose proof (__add__class _ _ _ Hall E) as Hall1.
    destruct (__add__len _ _ _ E) as [_ [_ [Hf _]]].
    destruct (IH s1 s' Hall1 H) as [Hf' Hall'].
    rewrite Hf in *. split; assumption.
Qed.

(** X18: every centroid stored after a successful batch into a fresh engine
    is an instance of exactly the configured [centroid_factory] class: the
    move and the merge build their result with [type(self)]. *)
Theorem stored_class (k : Z) (d : vec -> vec -> result R) (f : cls)
  (points : list vec) (s' : AddC) :
  batch (__init__ k d f) points = Ok s' ->
  centroid_factory s' = f /\
  forall c, In c (__iter__ s') -> type_of c = f.
Proof.
  intros H. apply (batch_class points (__init__ k d f) s'); [|exact H].
  intros c [].
Qed.

Lemma stored_class_witness :
  exists s',
    batch (__init__ 2 default_dist KernelCentroid_cls) [[0]; [1]; [0]] = Ok s'
    /\ centroid_factory s' = KernelCentroid_cls
    /\ forall c, In c (__iter__ s') -> type_of c = KernelCentroid_cls.
Proof.
  destruct batch_three_points as [e [He _]].
  exists e. split; [exact He|].
  apply (stored_class 2 default_dist KernelCentroid_cls [[0]; [1]; [0]] e He).
Defined.

(** X19: on every state reached by a successful batch into a fresh engine
    of kernel centroids, [trim] either raises [ZeroDivisionError] or returns
    a list of stored centroids; it raises nothing else. *)
Theorem trim_after_batch (k : Z) (d : vec -> vec -> result R)
  (points : list vec) (s' : AddC) (p : R) :
  batch (__init__ k d KernelCentroid_cls) points = Ok s' ->
  trim s' p = Raise ZeroDivisionError \/
  exists l, trim s' p = Ok l /\ incl l (__iter__ s').
Proof.
  intros H.
  assert (Hk : kernel_only (__iter__ s')).
  { intros c Hc.
    apply (batch_class points (__init__ k d KernelCentroid_cls) s');
      [intros c' [] | exact H | exact Hc]. }
  unfold trim.
  destruct (positive_sizes_total _ Hk) as [sub Hsub]. rewrite Hsub.
  cbn [bind]. destruct sub as [|s0 sub].
  - left. reflexivity.
  - right. cbn [mean List.length bind]. apply at_least_total. exact Hk.
Qed.

Lemma trim_after_batch_witness :
  exists s',
    batch (__init__ 2 default_dist KernelCentroid_cls) [[0]; [1]; [0]] = Ok s'
    /\ (trim s' (1 / 100) = Raise ZeroDivisionError \/
        exists l, trim s' (1 / 100) = Ok l /\ incl l (__iter__ s')).
Proof.
  destruct batch_three_points as [e [He _]].
  exists e. split; [exact He|].
  apply (trim_after_batch 2 default_dist [[0]; [1]; [0]] e (1 / 100) He).
Defined.

(** *** Ingestion *)

(** X20: after a successful [__add__] of a point, the engine contains it:
    the centroid wrapping the point is found by [__contains__]. *)
Theorem contains_after_add (self s' : AddC) (p : vec) :
  __add__ self p = Ok s' ->
  __contains__ s' (factory (centroid_factory self) p) = true.
Proof.
  unfold __add__. intros H.
  destruct (_step_one self _) as [s1|]; [|discriminate]. cbn [bind] in H.
  destruct (_step_two s1) as [s2|]; [|discriminate]. cbn [bind] in H.
  unfold _step_three, FastPair.insert in H.
  destruct (FastPair.__contains__ (fastpair s2) _); [discriminate|].
  cbn [bind] in H. inversion H; subst.
  unfold __contains__, FastPair.__contains__. simpl.
  rewrite existsb_app. simpl. unfold __eq__ at 2.
  rewrite vec_eqb_refl. rewrite orb_true_r. reflexivity.
Qed.

Lemma contains_after_add_witness :
  __contains__ (two_points 2)
    (factory (centroid_factory
                {| kmax := 2; npoints := 0 + 1;
                   centroid_factory := KernelCentroid_cls;
                   fastpair := {| FastPair.dist := default_dist;
                                  FastPair.points := [KernelCentroid [0] 0 0]
                               |} |}) [1]) = true.
Proof.
  apply (contains_after_add _ (two_points 2) [1]).
  pose proof (batch_two_points 2) as H. unfold batch in H.
  rewrite first_point in H. cbn [bind factory] in H.
  destruct (__add__ _ [1]) as [s|] eqn:E; [|discriminate].
  cbn [bind] in H. exact H.
Defined.

(** X21: ingesting a sequence in two batches is ingesting their
    concatenation in one: [batch] is repeated single-point ingestion, and an
    error in the first part is the error of the whole. *)
Theorem batch_concat (self : AddC) (l1 l2 : list vec) :
  batch self (l1 ++ l2) = (s <- batch self l1 ;; batch s l2) /\
  forall p, batch self (l1 ++ [p]) = (s <- batch self l1 ;; __add__ s p).
Proof.
  split; [apply batch_app|].
  intros p. rewrite batch_app.
  destruct (batch self l1) as [s|]; [|reflexivity].
  cbn [bind]. apply batch_one.
Qed.

Lemma __add__dist (self s' : AddC) (p : vec) :
  __add__ self p = Ok s' ->
  FastPair.dist (fastpair s') = FastPair.dist (fastpair self).
Proof.
  unfold __add__. intros H.
  destruct (_step_one self _) as [s1|] eqn:E1; [|discriminate].
  cbn [bind] in H.
  destruct (_step_two s1) as [s2|] eqn:E2; [|discriminate]. cbn [bind] in H.
  destruct (_step_three s2 _) as [s3|] eqn:E3; [|discriminate].
  cbn [bind] in H. inversion H; subst. simpl.
  assert (D1 : FastPair.dist (fastpair s1) = FastPair.dist (fastpair self)).
  { unfold _step_one in E1.
    destruct (0 <? FastPair.__len__ (fastpair self))%nat;
      [|inversion E1; reflexivity].
    destruct (FastPair.sdist (fastpair self) _); [|discriminate].
    cbn [bind] in E1.
    destruct (FastPair.min_by_key _) as [m|]; [|discriminate].
    cbn [bind] in E1.
    destruct (add (snd m) _) as [moved|]; [|discriminate]. cbn [bind] in E1.
    destruct (FastPair._update_point _ _ _) as [fp|] eqn:Eu; [|discriminate].
    inversion E1; subst. simpl. apply (_update_point_len _ _ _ _ Eu). }
  assert (D2 : FastPair.dist (fastpair s2) = FastPair.dist (fastpair s1)).
  { unfold _step_two in E2.
    destruct ((kmax s1 <=? Z.of_nat (FastPair.__len__ (fastpair s1)))%Z
              && (1 <? FastPair.__len__ (fastpair s1))%nat);
      [|inversion E2; reflexivity].
    destruct (FastPair.closest_pair (fastpair s1)) as [cp|]; [|discriminate].
    cbn [bind] in E2.
    destruct (FastPair.remove (fastpair s1) _) as [fp1|] eqn:Er;
      [|discriminate]. cbn [bind] in E2.
    destruct (merge _ _) as [merged|]; [|discriminate]. cbn [bind] in E2.
    destruct (FastPair._update_point fp1 _ _) as [fp2|] eqn:Eu;
      [|discriminate].
    inversion E2; subst. simpl.
    destruct (_update_point_len _ _ _ _ Eu) as [_ ->].
    apply (remove_len _ _ _ Er). }
  assert (D3 : FastPair.dist (fastpair s3) = FastPair.dist (fastpair s2)).
  { unfold _step_three in E3.
    destruct (FastPair.insert (fastpair s2) _) as [fp|] eqn:Ei;
      [|discriminate].
    inversion E3; subst. simpl. apply (insert_len _ _ _ Ei). }
  congruence.
Qed.

(** X22: a successful batch from any state counts every point and leaves
    the configuration alone: [npoints] grows by the number of points, and
    [kmax], the centroid factory and the distance are unchanged. *)
Theorem batch_counts_points :
  forall (points : list vec) (self s' : AddC),
    batch self points = Ok s' ->
    npoints s' = (npoints self + Z.of_nat (List.length points))%Z /\
    kmax s' = kmax self /\
    centroid_factory s' = centroid_factory self /\
    FastPair.dist (fastpair s') = FastPair.dist (fastpair self).
Proof.
  induction points as [|p rest IH]; intros self s' H; simpl in H.
  - inversion H; subst. simpl. repeat split. lia.
  - destruct (__add__ self p) as [s1|] eqn:E; [|discriminate].
    cbn [bind] in H.
    destruct (__add__len _ _ _ E) as [K [N [F _]]].
    pose proof (__add__dist _ _ _ E) as D.
    destruct (IH s1 s' H) as [N' [K' [F' D']]].
    simpl List.length. repeat split; try congruence. lia.
Qed.

Lemma batch_counts_points_witness :
  exists s',
    batch (two_points 2) [[0]] = Ok s' /\
    npoints s' = (npoints (two_points 2) + Z.of_nat (List.length [[0]]))%Z /\
    kmax s' = kmax (two_points 2) /\
    centroid_factory s' = centroid_factory (two_points 2) /\
    FastPair.dist (fastpair s') = FastPair.dist (fastpair (two_points 2)).
Proof.
  destruct three_points_step as [m [s [H _]]].
  eexists. split; [rewrite batch_one; exact H|].
  apply (batch_counts_points [[0]] (two_points 2)).
  rewrite batch_one. exact H.
Defined.

(** *** An engine of plain centroids *)

Lemma __add__plain_at_capacity (self : AddC) (p : vec) :
  all_of_class Centroid_cls (__iter__ self) ->
  (kmax self <=? Z.of_nat (__len__ self))%Z && (1 <? __len__ self)%nat = true ->
  exists e, __add__ self p = Raise e.
Proof.
  intros Hall Hcap. unfold __add__.
  destruct (_step_one self _) as [s1|e] eqn:E1; [|eexists; reflexivity]. cbn [bind].
  destruct (_step_one_len _ _ _ E1) as [L1 [K1 _]].
  pose proof (_step_one_class _ _ _ _ Hall E1) as Hall1.
  assert (E2 : exists e, _step_two s1 = Raise e).
  { unfold _step_two. unfold __len__ in *. rewrite K1, L1, Hcap.
    destruct (FastPair.closest_pair (fastpair s1)) as [cp|e] eqn:Ecp;
      [|eexists; reflexivity]. cbn [bind].
    destruct (closest_pair_in _ _ Ecp) as [Ha _].
    destruct (FastPair.remove (fastpair s1) _) as [fp1|e]; [|eexists; reflexivity].
    cbn [bind].
    assert (Hm : exists e, merge (fst (snd cp)) (snd (snd cp)) = Raise e).
    { unfold merge. rewrite (Hall1 _ Ha).
      apply CentroidProperties.plain_merge_never_returns_aux. }
    destruct Hm as [e ->]. eexists. reflexivity. }
  destruct E2 as [e ->]. eexists. reflexivity.
Qed.

Lemma batch_plain_bound :
  forall (points : list vec) (self s' : AddC),
    centroid_factory self = Centroid_cls ->
    all_of_class Centroid_cls (__iter__ self) ->
    batch self points = Ok s' ->
    (Z.of_nat (__len__ self) <= Z.max (kmax self) 2)%Z ->
    (Z.of_nat (__len__ self + List.length points) <= Z.max (kmax self) 2)%Z.
Proof.
  induction points as [|p rest IH]; intros self s' Hf Hall H Hle; simpl in H.
  - rewrite Nat.add_0_r. exact Hle.
  - destruct (__add__ self p) as [s1|] eqn:E; [|discriminate].
    cbn [bind] in H.
    destruct (__add__len _ _ _ E) as [K [_ [F L]]].
    assert (Hall1 : all_of_class Centroid_cls (__iter__ s1)).
    { rewrite <- Hf, <- F. apply (__add__class self s1 p); [|exact E].
      rewrite Hf. exact Hall. }
    destruct ((kmax self <=? Z.of_nat (__len__ self))%Z
              && (1 <? __len__ self)%nat) eqn:Hcap.
    + destruct (__add__plain_at_capacity self p Hall Hcap) as [e He].
      congruence.
    + assert (Hlt : (Z.of_nat (S (__len__ self)) <= Z.max (kmax self) 2)%Z).
      { apply andb_false_iff in Hcap. destruct Hcap as [Hc|Hc].
        - apply Z.leb_gt in Hc. lia.
        - apply Nat.ltb_ge in Hc. lia. }
      specialize (IH s1 s' (eq_trans F Hf) Hall1 H).
      rewrite K, L in IH. specialize (IH Hlt).
      simpl List.length. replace (__len__ self + S (List.length rest))%nat
        with (S (__len__ self) + List.length rest)%nat by lia.
      exact IH.
Qed.

(** X23: an engine built with the plain [Centroid] factory cannot get past
    its first merge: a batch into a fresh engine succeeds only if it has at
    most [max(kmax, 2)] points. *)
Theorem plain_engine_bound (k : Z) (d : vec -> vec -> result R)
  (points : list vec) (s' : AddC) :
  batch (__init__ k d Centroid_cls) points = Ok s' ->
  (Z.of_nat (List.length points) <= Z.max k 2)%Z.
Proof.
  intros H.
  apply (batch_plain_bound points (__init__ k d Centroid_cls) s');
    [reflexivity | intros c [] | exact H | simpl; lia].
Qed.

Lemma plain_engine_bound_witness :
  (Z.of_nat (List.length [[0]]) <= Z.max 100 2)%Z.
Proof.
  apply (plain_engine_bound 100 default_dist [[0]] plain_one_point).
  rewrite batch_one. apply first_point.
Defined.

(** *** trim, once more *)

Lemma fold_left_Rplus_acc :
  forall (l : list R) (a : R), fold_left Rplus l a = a + fold_left Rplus l 0.
Proof.
  induction l as [|x l IH]; intros a; simpl; [lra|].
  rewrite (IH (a + x)), (IH (0 + x)). lra.
Qed.

Lemma sum_positive :
  forall l : list R, (forall s, In s l -> 0 < s) -> l <> [] ->
    0 < fold_left Rplus l 0.
Proof.
  induction l as [|x l IH]; intros Hpos Hne; [contradiction|].
  simpl. rewrite fold_left_Rplus_acc.
  assert (0 < x) by (apply Hpos; left; reflexivity).
  destruct l as [|y l]; [simpl; lra|].
  assert (0 < fold_left Rplus (y :: l) 0).
  { apply IH; [|discriminate]. intros s Hs. apply Hpos. right. exact Hs. }
  lra.
Qed.

Lemma sum_le_max (M : R) :
  forall l : list R, (forall s, In s l -> s <= M) ->
    fold_left Rplus l 0 <= INR (List.length l) * M.
Proof.
  induction l as [|x l IH]; intros Hle.
  - simpl. lra.
  - cbn [fold_left]. rewrite fold_left_Rplus_acc.
    change (List.length (x :: l)) with (S (List.length l)). rewrite S_INR.
    assert (x <= M) by (apply Hle; left; reflexivity).
    assert (fold_left Rplus l 0 <= INR (List.length l) * M).
    { apply IH. intros s Hs. apply Hle. right. exact Hs. }
    lra.
Qed.

Lemma list_max_exists :
  forall l : list R, l <> [] ->
    exists M, In M l /\ forall s, In s l -> s <= M.
Proof.
  induction l as [|x l IH]; intros Hne; [contradiction|].
  destruct l as [|y l].
  - exists x. split; [left; reflexivity|]. intros s [<-|[]]. lra.
  - destruct IH as [M [HM Hle]]; [discriminate|].
    destruct (Rle_lt_dec x M) as [Hx|Hx].
    + exists M. split; [right; exact HM|].
      intros s [<-|Hs]; [exact Hx | apply Hle; exact Hs].
    + exists x. split; [left; reflexivity|].
      intros s [<-|Hs]; [lra|]. specialize (Hle s Hs). lra.
Qed.

(** The mean of a non-empty list of positive numbers is positive and is
    reached or exceeded by one of them. *)
Lemma mean_facts (sub : list R) :
  sub <> [] -> (forall s, In s sub -> 0 < s) ->
  exists m, mean sub = Ok m /\ 0 < m /\ exists s, In s sub /\ m <= s.
Proof.
  intros Hne Hpos.
  assert (Hn : 0 < INR (List.length sub)).
  { destruct sub; [contradiction|]. apply lt_0_INR. simpl. lia. }
  exists (fold_left Rplus sub 0 / INR (List.length sub)).
  split; [destruct sub; [contradiction | reflexivity]|].
  split.
  - apply Rdiv_lt_0_compat; [apply sum_positive; assumption | exact Hn].
  - destruct (list_max_exists sub Hne) as [M [HM Hle]].
    exists M. split; [exact HM|].
    apply Rmult_le_reg_r with (INR (List.length sub)); [exact Hn|].
    replace (fold_left Rplus sub 0 / INR (List.length sub)
             * INR (List.length sub))
      with (fold_left Rplus sub 0) by (field; lra).
    rewrite Rmult_comm. apply sum_le_max. exact Hle.
Qed.

Lemma positive_sizes_spec :
  forall l sub, kernel_only l -> positive_sizes l = Ok sub ->
    forall s, In s sub <->
      0 < s /\ exists x, In x l /\ size x = Ok s.
Proof.
  induction l as [|x l IH]; intros sub Hk H s.
  - inversion H; subst. split; [intros [] | intros [_ [y [[] _]]]].
  - destruct (kernel_only_cons _ _ Hk) as [[c [n [sx ->]]] Hk'].
    simpl in H.
    destruct (positive_sizes_total l Hk') as [rest Hrest].
    rewrite Hrest in H. specialize (IH rest Hk' Hrest s).
    destruct (Rlt_dec 0 sx) as [Hs|Hs]; simpl in H; inversion H; subst.
    + split.
      * intros [<-|Hin].
        -- split; [exact Hs|]. eexists. split; [left; reflexivity|reflexivity].
        -- apply IH in Hin. destruct Hin as [H0 [y [Hy Hsy]]].
           split; [exact H0|]. exists y. split; [right; exact Hy | exact Hsy].
      * intros [H0 [y [[<-|Hy] Hsy]]].
        -- simpl in Hsy. injection Hsy as <-. left. reflexivity.
        -- right. apply IH. split; [exact H0|]. exists y. split; assumption.
    + split.
      * intros Hin. apply IH in Hin. destruct Hin as [H0 [y [Hy Hsy]]].
        split; [exact H0|]. exists y. split; [right; exact Hy | exact Hsy].
      * intros [H0 [y [[<-|Hy] Hsy]]].
        -- simpl in Hsy. injection Hsy as <-. contradiction.
        -- apply IH. split; [exact H0|]. exists y. split; assumption.
Qed.

Lemma at_least_spec (t : R) :
  forall l r, kernel_only l -> at_least t l = Ok r ->
    forall x, In x r <-> In x l /\ exists s, size x = Ok s /\ t <= s.
Proof.
  induction l as [|y l IH]; intros r Hk H x.
  - inversion H; subst. split; [intros [] | intros [[] _]].
  - destruct (kernel_only_cons _ _ Hk) as [[c [n [sy ->]]] Hk'].
    simpl in H.
    destruct (at_least_total t l Hk') as [rest [Hrest _]].
    rewrite Hrest in H. simpl in H. specialize (IH rest Hk' Hrest x).
    destruct (Rle_dec t sy) as [Hs|Hs]; inversion H; subst.
    + split.
      * intros [<-|Hin].
        -- split; [left; reflexivity|]. exists sy. split; [reflexivity|exact Hs].
        -- apply IH in Hin. destruct Hin as [Hin Hx].
           split; [right; exact Hin | exact Hx].
      * intros [[<-|Hin] Hx]; [left; reflexivity|].
        right. apply IH. split; assumption.
    + split.
      * intros Hin. apply IH in Hin. destruct Hin as [Hin Hx].
        split; [right; exact Hin | exact Hx].
      * intros [[<-|Hin] [s [Hsz Hts]]].
        -- simpl in Hsz. injection Hsz as <-. contradiction.
        -- apply IH. split; [exact Hin|]. exists s. split; assumption.
Qed.

Lemma at_least_mono (t1 t2 : R) :
  t1 <= t2 ->
  forall l r1 r2, kernel_only l ->
    at_least t1 l = Ok r1 -> at_least t2 l = Ok r2 ->
    incl r2 r1 /\ (List.length r2 <= List.length r1)%nat.
Proof.
  intros Ht. induction l as [|y l IH]; intros r1 r2 Hk H1 H2.
  - inversion H1; inversion H2; subst. split; [apply incl_refl | lia].
  - destruct (kernel_only_cons _ _ Hk) as [[c [n [sy ->]]] Hk'].
    simpl in H1, H2.
    destruct (at_least_total t1 l Hk') as [q1 [Hq1 _]].
    destruct (at_least_total t2 l Hk') as [q2 [Hq2 _]].
    rewrite Hq1 in H1. rewrite Hq2 in H2. simpl in H1, H2.
    destruct (IH q1 q2 Hk' Hq1 Hq2) as [Hincl Hlen].
    destruct (Rle_dec t1 sy) as [Ha|Ha]; destruct (Rle_dec t2 sy) as [Hb|Hb];
      inversion H1; inversion H2; subst.
    + split; [|simpl; lia].
      intros z [<-|Hz]; [left; reflexivity | right; apply Hincl; exact Hz].
    + split; [|simpl; lia]. apply incl_tl. exact Hincl.
    + exfalso. lra.
    + split; assumption.
Qed.

(** How [trim] decomposes on kernel centroids with some positive size. *)
Lemma trim_decompose (self : AddC) :
  kernel_only (__iter__ self) ->
  (exists c, In c (__iter__ self) /\ positive_size c) ->
  exists m, 0 < m /\
    (exists x s, In x (__iter__ self) /\ size x = Ok s /\ m <= s) /\
    forall p, trim self p = at_least (m * p) (__iter__ self).
Proof.
  intros Hk Hp.
  destruct (positive_sizes_some _ Hk Hp) as [s0 [sub Hsub]].
  pose proof (positive_sizes_spec _ _ Hk Hsub) as Hspec.
  destruct (mean_facts (s0 :: sub)) as [m [Hm [Hpos [s [Hs Hms]]]]];
    [discriminate | intros s Hs; apply Hspec; exact Hs |].
  exists m. split; [exact Hpos|]. split.
  - apply Hspec in Hs. destruct Hs as [_ [x [Hx Hsx]]].
    exists x, s. repeat split; assumption.
  - intros p. unfold trim. rewrite Hsub. cbn [bind]. rewrite Hm. reflexivity.
Qed.

(** X24: trim is monotone in the proportion: on kernel centroids with some
    positive size, a larger proportion returns a sub-list of what a smaller
    one returns, hence never more centroids. *)
Theorem trim_monotone (self : AddC) (p1 p2 : R) :
  kernel_only (__iter__ self) ->
  (exists c, In c (__iter__ self) /\ positive_size c) ->
  p1 <= p2 ->
  exists l1 l2, trim self p1 = Ok l1 /\ trim self p2 = Ok l2 /\
    incl l2 l1 /\ (List.length l2 <= List.length l1)%nat.
Proof.
  intros Hk Hp Hle.
  destruct (trim_decompose self Hk Hp) as [m [Hm [_ Ht]]].
  destruct (at_least_total (m * p1) _ Hk) as [l1 [H1 _]].
  destruct (at_least_total (m * p2) _ Hk) as [l2 [H2 _]].
  exists l1, l2. rewrite !Ht. split; [exact H1|]. split; [exact H2|].
  apply (at_least_mono (m * p1) (m * p2)) with (l := __iter__ self);
    try assumption. nra.
Qed.

Lemma two_points_kernel_only : kernel_only (__iter__ (two_points 2)).
Proof. intros c [<-|[<-|[]]]; reflexivity. Qed.

Lemma two_points_positive :
  exists c, In c (__iter__ (two_points 2)) /\ positive_size c.
Proof.
  exists moved0. split; [left; reflexivity|].
  exists (0 + g01). split; [reflexivity|]. pose proof g01_bounds. lra.
Qed.

Lemma trim_monotone_witness :
  exists l1 l2, trim (two_points 2) (1 / 100) = Ok l1 /\
    trim (two_points 2) (1 / 5) = Ok l2 /\
    incl l2 l1 /\ (List.length l2 <= List.length l1)%nat.
Proof.
  apply (trim_monotone (two_points 2) (1 / 100) (1 / 5));
    [apply two_points_kernel_only | apply two_points_positive | lra].
Defined.



(** X26: with a strictly positive proportion, every centroid trim returns
    has a strictly positive size: a singleton that never absorbed a point
    (size 0) is always filtered out. *)
Theorem trim_drops_zero_size (self : AddC) (p : R) (l : list centroid) :
  kernel_only (__iter__ self) ->
  0 < p ->
  trim self p = Ok l ->
  forall x, In x l -> In x (__iter__ self) /\ positive_size x.
Proof.
  intros Hk Hp Ht x Hx.
  assert (Hex : exists c, In c (__iter__ self) /\ positive_size c).
  { destruct (positive_sizes_total _ Hk) as [sub Hsub].
    unfold trim in Ht. rewrite Hsub in Ht. cbn [bind] in Ht.
    destruct sub as [|s0 sub]; [discriminate|].
    destruct (positive_sizes_spec _ _ Hk Hsub s0) as [H _].
    destruct H as [H0 [c [Hc Hs]]]; [left; reflexivity|].
    exists c. split; [exact Hc|]. exists s0. split; assumption. }
  destruct (trim_decompose self Hk Hex) as [m [Hm [_ Hd]]].
  rewrite Hd in Ht.
  apply (at_least_spec (m * p) _ l Hk Ht) in Hx.
  destruct Hx as [Hin [s [Hs Hts]]]. split; [exact Hin|].
  exists s. split; [exact Hs|]. nra.
Qed.

Lemma trim_drops_zero_size_witness :
  exists l, trim (two_points 2) (1 / 100) = Ok l /\
    forall x, In x l -> In x (__iter__ (two_points 2)) /\ positive_size x.
Proof.
  destruct (trim_on_kernel_centroids (two_points 2) (1 / 100)
              two_points_kernel_only) as [_ H].
  destruct (H two_points_positive) as [l [Hl _]].
  exists l. split; [exact Hl|].
  apply (trim_drops_zero_size (two_points 2) (1 / 100) l
           two_points_kernel_only); [lra | exact Hl].
Defined.

End BaseProperties.
